(** * implode.py: bundling instruction fragments into one file

    A shallow embedding of [implode.py] and of the Python built-ins it
    calls, followed by the properties of the bundler, of the ordering
    function and of the two strippers.

    Python strings are sequences of Unicode code points; they are modelled
    as lists of code points so that [str.splitlines] and [str.strip] see the
    same line boundaries and the same white space as the interpreter. *)

From Stdlib Require Import String Ascii.
From Stdlib Require Import List NArith Bool Arith Lia Permutation Sorted.
Import ListNotations.

Set Implicit Arguments.

(** ** Python strings *)

Definition char := N.
Definition str := list char.

Module Py.

Local Open Scope N_scope.

(** [Py_UNICODE_ISSPACE]: the characters [str.strip()] removes. *)
Definition isspace (c : char) : bool :=
  ((9 <=? c) && (c <=? 13)) || ((28 <=? c) && (c <=? 32))
  || (c =? 133) || (c =? 160) || (c =? 5760)
  || ((8192 <=? c) && (c <=? 8202))
  || (c =? 8232) || (c =? 8233) || (c =? 8239) || (c =? 8287)
  || (c =? 12288).

(** [Py_UNICODE_ISLINEBREAK]: the line boundaries of [str.splitlines()]. *)
Definition islinebreak (c : char) : bool :=
  ((10 <=? c) && (c <=? 13)) || ((28 <=? c) && (c <=? 30))
  || (c =? 133) || (c =? 8232) || (c =? 8233).

Definition LF : char := 10.
Definition CR : char := 13.

Local Close Scope N_scope.

Fixpoint eqb (a b : str) : bool :=
  match a, b with
  | [], [] => true
  | x :: a', y :: b' => N.eqb x y && eqb a' b'
  | _, _ => false
  end.

(** [a < b] on strings: lexicographic on code points. *)
Fixpoint ltb (a b : str) : bool :=
  match a, b with
  | _, [] => false
  | [], _ :: _ => true
  | x :: a', y :: b' => N.ltb x y || (N.eqb x y && ltb a' b')
  end.

Fixpoint startswith (s p : str) : bool :=
  match p, s with
  | [], _ => true
  | y :: p', x :: s' => N.eqb x y && startswith s' p'
  | _ :: _, [] => false
  end.

Definition endswith (s p : str) : bool :=
  startswith (rev s) (rev p).

Fixpoint dropwhile (A : Type) (p : A -> bool) (l : list A) : list A :=
  match l with
  | [] => []
  | x :: l' => if p x then dropwhile p l' else l
  end.

(** [s.lstrip()], [s.rstrip()], [s.strip()] with no argument. *)
Definition lstrip (s : str) : str := dropwhile isspace s.
Definition rstrip (s : str) : str := rev (dropwhile isspace (rev s)).
Definition strip (s : str) : str := rstrip (lstrip s).

(** [s.lstrip(chars)]. *)
Definition lstrip_chars (chars : str) (s : str) : str :=
  dropwhile (fun c => existsb (N.eqb c) chars) s.

(** [s.splitlines()]: the text is cut at every line boundary, a carriage
    return followed by a line feed counts as one boundary, the boundaries
    are dropped, and a boundary that ends the text opens no further
    line. *)
Fixpoint splitlines (s : str) : list str :=
  match s with
  | [] => []
  | c :: s' =>
      if islinebreak c then
        [] :: match s' with
              | d :: s'' =>
                  if N.eqb c CR && N.eqb d LF then splitlines s''
                  else splitlines s'
              | [] => splitlines s'
              end
      else
        match splitlines s' with
        | [] => [[c]]
        | l :: ls => (c :: l) :: ls
        end
  end.

(** [sep.join(parts)]. *)
Fixpoint join (sep : str) (parts : list str) : str :=
  match parts with
  | [] => []
  | [p] => p
  | p :: ps => p ++ sep ++ join sep ps
  end.

(** [s.rfind('.')], with [None] for [-1]. *)
Fixpoint rfind (c : char) (s : str) : option nat :=
  match s with
  | [] => None
  | x :: s' =>
      match rfind c s' with
      | Some i => Some (S i)
      | None => if N.eqb x c then Some 0 else None
      end
  end.

(** [s.replace(old, new)] for a non-empty [old]; the fuel is the length
    of the text, which bounds the number of steps. *)
Fixpoint replace_fuel (fuel : nat) (old new s : str) : str :=
  match fuel with
  | O => s
  | S fuel' =>
      match s with
      | [] => []
      | c :: s' =>
          if startswith s old
          then new ++ replace_fuel fuel' old new (skipn (length old) s)
          else c :: replace_fuel fuel' old new s'
      end
  end.

Definition replace (old new s : str) : str :=
  replace_fuel (length s) old new s.

(** [sorted(l, key=key)]: a stable sort that compares keys with [<]
    only.  An element is put in front of the first element of the sorted
    tail whose key is not smaller than its own, which keeps elements
    with equal keys in their original order. *)
Section Sorted.
Variable A : Type.
Variable key : A -> str.

Fixpoint insert (x : A) (l : list A) : list A :=
  match l with
  | [] => [x]
  | y :: l' => if ltb (key y) (key x) then y :: insert x l' else x :: l
  end.

Fixpoint sorted (l : list A) : list A :=
  match l with
  | [] => []
  | x :: l' => insert x (sorted l')
  end.
End Sorted.

(** A [dict] with string keys: the entries in insertion order.
    Assigning to a key that is present replaces its value in place. *)
Section Dict.
Variable V : Type.

Definition dict := list (str * V).

Fixpoint dict_set (d : dict) (k : str) (v : V) : dict :=
  match d with
  | [] => [(k, v)]
  | (k', v') :: d' =>
      if eqb k' k then (k, v) :: d' else (k', v') :: dict_set d' k v
  end.

Fixpoint dict_get (d : dict) (k : str) : option V :=
  match d with
  | [] => None
  | (k', v') :: d' => if eqb k' k then Some v' else dict_get d' k
  end.

Fixpoint dict_del (d : dict) (k : str) : dict :=
  match d with
  | [] => []
  | (k', v') :: d' => if eqb k' k then d' else (k', v') :: dict_del d' k
  end.

Definition dict_values (d : dict) : list V := map snd d.
End Dict.

(** String literals: the code points of an ASCII literal, where the two
    characters backslash and [n] stand for a line feed. *)
Fixpoint lit (s : string) : str :=
  match s with
  | EmptyString => []
  | String a s' =>
      match s' with
      | String b s'' =>
          if (Ascii.eqb a "\" && Ascii.eqb b "n")%char
          then LF :: lit s''
          else N_of_ascii a :: lit s'
      | EmptyString => [N_of_ascii a]
      end
  end.

End Py.

Arguments Py.lit s%_string_scope.
Abbreviation py := Py.lit.

(** ** pathlib *)

(** A directory entry as the bundler sees it: the final path component of
    a [Path] yielded by [glob], and the text [f.read()] returns for it. *)
Record File := mkFile { name : str; text : str }.

Module Pathlib.

(** [PurePath.stem]: the name without its last suffix.  The suffix
    starts at the last dot, unless that dot is the first or the last
    character of the name. *)
Definition stem_of (nm : str) : str :=
  match Py.rfind 46%N nm with
  | Some i =>
      if (0 <? i) && (i <? length nm - 1) then firstn i nm else nm
  | None => nm
  end.

Definition stem (f : File) : str := stem_of (name f).

(** [Path(dir).glob("*" + suffix)] over the entries of a directory. *)
Definition glob (suffix : str) (dir : list File) : list File :=
  filter (fun f => Py.endswith (name f) suffix) dir.

End Pathlib.

(** ** constants.py *)

Module Constants.

Local Open Scope N_scope.

Definition isupper (c : char) : bool := (65 <=? c) && (c <=? 90).
Definition islower (c : char) : bool := (97 <=? c) && (c <=? 122).
Definition lower (c : char) : char := if isupper c then c + 32 else c.
Definition upper (c : char) : char := if islower c then c - 32 else c.

Local Close Scope N_scope.

(** Modelled from the spec: [header_to_filename] of [constants.py], which
    is not part of the sources at hand.  It maps a title with spaces to
    the dash-separated lower-case form. *)
Definition header_to_filename (header : str) : str :=
  map (fun c => if N.eqb c 32 then 45%N else lower c) header.

(** Modelled from the spec: [filename_to_header] of [constants.py], the
    way back: dashes become spaces and every word starts with a capital
    letter. *)
Fixpoint title (start : bool) (s : str) : str :=
  match s with
  | [] => []
  | c :: s' =>
      if isupper c || islower c
      then (if start then upper c else lower c) :: title false s'
      else c :: title true s'
  end.

Definition filename_to_header (filename : str) : str :=
  title true (map (fun c => if N.eqb c 45 then 32%N else c) filename).

End Constants.

(** ** implode.py *)

Module Implode.

Import Pathlib.

Definition is_delimiter (line : str) : bool :=
  Py.eqb (Py.strip line) (py "---").

(** The loop [for i in range(1, len(lines))] of [strip_yaml_frontmatter]
    over the indices still to visit: the first index whose line is a
    delimiter. *)
Fixpoint next_delimiter (lines : list str) (range : list nat) : option nat :=
  match range with
  | [] => None
  | i :: range' =>
      if is_delimiter (nth i lines []) then Some i
      else next_delimiter lines range'
  end.

Definition strip_yaml_frontmatter (text : str) : str :=
  let lines := Py.splitlines text in
  match lines with
  | first :: _ =>
      if is_delimiter first then
        match next_delimiter lines (seq 1 (length lines - 1)) with
        | Some i =>
            Py.lstrip_chars (py "\n") (Py.join (py "\n") (skipn (i + 1) lines))
        | None => text
        end
      else text
  | [] => text
  end.

Definition is_blank (line : str) : bool :=
  match Py.strip line with [] => true | _ :: _ => false end.

Definition strip_header (text : str) : str :=
  let lines := Py.splitlines text in
  match lines with
  | first :: remaining_lines =>
      if Py.startswith first (py "## ") then
        Py.join (py "\n") (Py.dropwhile is_blank remaining_lines)
      else text
  | [] => text
  end.

Section Bundler.

(** What [constants.py] provides. *)
Variable header_to_filename : str -> str.
Variable filename_to_header : str -> str.
Variable SECTION_GLOBS_keys : list str.

(** The loop over the section names: [file_dict] loses the files it
    hands to [ordered_files]. *)
Fixpoint take_sections (section_globs_keys : list str)
    (file_dict : Py.dict File) (ordered_files : list File)
    : Py.dict File * list File :=
  match section_globs_keys with
  | [] => (file_dict, ordered_files)
  | section_name :: keys' =>
      let filename := header_to_filename section_name in
      match Py.dict_get file_dict filename with
      | Some f =>
          take_sections keys' (Py.dict_del file_dict filename)
            (ordered_files ++ [f])
      | None => take_sections keys' file_dict ordered_files
      end
  end.

Definition get_ordered_files (file_list : list File)
    (section_globs_keys : list str) : list File :=
  let file_dict :=
    fold_left (fun d f => Py.dict_set d (stem f) f) file_list [] in
  let '(file_dict, ordered_files) :=
    take_sections section_globs_keys file_dict [] in
  let remaining_files := Py.sorted name (Py.dict_values file_dict) in
  ordered_files ++ remaining_files.

(** The output file is the text written to it so far. *)
Definition write (out s : str) : str := out ++ s.

Definition is_general (f : File) : bool := Py.eqb (stem f) (py "general").

(** One turn of the loop of [bundle_cursor_rules]. *)
Definition cursor_step (out : str) (rule_file : File) : str :=
  let content := Py.strip (text rule_file) in
  match content with
  | [] => out
  | _ :: _ =>
      let content := strip_yaml_frontmatter content in
      let content := strip_header content in
      let header := filename_to_header (stem rule_file) in
      let out :=
        if negb (is_general rule_file)
        then write out (py "## " ++ header ++ py "\n\n")
        else out in
      let out := write out content in
      write out (py "\n\n")
  end.

Definition bundle_cursor_rules (rules_dir : list File) : str :=
  let rule_files := glob (py ".mdc") rules_dir in
  let general := filter is_general rule_files in
  let others := filter (fun f => negb (is_general f)) rule_files in
  let ordered_others := get_ordered_files others SECTION_GLOBS_keys in
  let ordered := general ++ ordered_others in
  fold_left cursor_step ordered [].

(** One turn of the loop of [bundle_github_instructions]. *)
Definition github_step (out : str) (instr_file : File) : str :=
  let content := Py.strip (text instr_file) in
  match content with
  | [] => out
  | _ :: _ =>
      let content := strip_yaml_frontmatter content in
      let content := strip_header content in
      let header :=
        filename_to_header
          (Py.replace (py ".instructions") (py "") (stem instr_file)) in
      let out := write out (py "## " ++ header ++ py "\n\n") in
      let out := write out content in
      write out (py "\n\n")
  end.

(** [copilot_general] is the text of [.github/copilot-instructions.md],
    or [None] when that file does not exist. *)
Definition bundle_github_instructions (copilot_general : option str)
    (instructions_dir : list File) : str :=
  let instr_files := glob (py ".instructions.md") instructions_dir in
  let ordered_files := get_ordered_files instr_files SECTION_GLOBS_keys in
  let out := [] in
  let out :=
    match copilot_general with
    | Some raw =>
        let content := Py.strip raw in
        match content with
        | [] => out
        | _ :: _ => write (write out content) (py "\n\n")
        end
    | None => out
    end in
  fold_left github_step ordered_files out.

End Bundler.

End Implode.

Import Pathlib Implode.

(** * Vocabulary of the statements *)

Definition first_line (text : str) : str := hd [] (Py.splitlines text).

(** The first line that is not blank, if there is one. *)
Definition first_non_blank_line (text : str) : option str :=
  hd_error (Py.dropwhile is_blank (Py.splitlines text)).

(** The lines that follow the first delimiter line, if there is one. *)
Fixpoint after_delimiter (lines : list str) : option (list str) :=
  match lines with
  | [] => None
  | l :: ls => if is_delimiter l then Some ls else after_delimiter ls
  end.

(** The text opens with a metadata block: a delimiter line first and a
    delimiter line later. *)
Definition has_frontmatter (text : str) : bool :=
  match Py.splitlines text with
  | first :: rest => is_delimiter first && existsb is_delimiter rest
  | [] => false
  end.

(** The first line of the text is a second-level header. *)
Definition has_header (text : str) : bool :=
  Py.startswith (first_line text) (py "## ").

(** [x] stands somewhere before [y] in [l]. *)
Definition precedes {A : Type} (x y : A) (l : list A) : Prop :=
  exists l1 l2 l3, l = l1 ++ x :: l2 ++ y :: l3.

Section Matching.

Variable header_to_filename : str -> str.

(** The identifier [s] is the filename form of this section name. *)
Definition names (section_name s : str) : bool :=
  Py.eqb (header_to_filename section_name) s.

(** The fragment's identifier matches an entry of the canonical
    sequence. *)
Definition matched (keys : list str) (f : File) : bool :=
  existsb (fun k => names k (stem f)) keys.


(** The files the loop over the section names hands over, in the order
    it does. *)
Fixpoint picks (keys : list str) (d : Py.dict File) : list File :=
  match keys with
  | [] => []
  | k :: keys' =>
      match Py.dict_get d (header_to_filename k) with
      | Some f => f :: picks keys' (Py.dict_del d (header_to_filename k))
      | None => picks keys' d
      end
  end.

(** The entries the loop leaves in the dictionary. *)
Definition unpicked (keys : list str) (d : Py.dict File) : Py.dict File :=
  filter (fun e => negb (existsb (fun k => names k (fst e)) keys)) d.

End Matching.

Definition entry (f : File) : str * File := (stem f, f).

(** [x] may stand before [y] in a list sorted by [key]: the key of [y]
    is not smaller. *)
Definition key_le {A : Type} (key : A -> str) (x y : A) : Prop :=
  Py.ltb (key y) (key x) = false.

(** The fragment has text left once the white space around it is
    trimmed. *)
Definition has_content (f : File) : bool :=
  match Py.strip (text f) with [] => false | _ :: _ => true end.

(** The line holds no line boundary. *)
Definition nobreak (l : str) : Prop :=
  Forall (fun c => Py.islinebreak c = false) l.

(** A test on the values of a dictionary, as a test on its entries. *)
Definition on_value {V : Type} (p : V -> bool) (e : str * V) : bool :=
  p (snd e).

(** * Example inputs *)

Module Examples.

Definition python_mdc : File :=
  mkFile (py "python.mdc") (py "## Python\n\nUse type hints.").
Definition react_mdc : File :=
  mkFile (py "react.mdc") (py "## React\n\nUse hooks.").
Definition react_router_mdc : File :=
  mkFile (py "react-router.mdc") (py "## React Router\n\nUse loaders.").
Definition zsh_mdc : File :=
  mkFile (py "zsh.mdc") (py "Quote every expansion.").

Definition rules : list File :=
  [react_mdc; zsh_mdc; react_router_mdc; python_mdc].

Definition general_mdc : File := mkFile (py "general.mdc") (py "Hello").
Definition b_topic_mdc : File :=
  mkFile (py "b-topic.mdc") (py "## B Topic\n\nBody B").
Definition a_topic_mdc : File :=
  mkFile (py "a-topic.mdc") (py "## A Topic\n\nBody A").

Definition blank_mdc : File := mkFile (py "blank.mdc") (py " \n\n").
Definition title_only_mdc : File :=
  mkFile (py "a-topic.mdc") (py "## A Topic").

Definition python_instructions : File :=
  mkFile (py "python.instructions.md")
    (py "---\napplyTo: **/*.py\n---\n## Python\n\nUse type hints.").
Definition blank_instructions : File :=
  mkFile (py "blank.instructions.md") (py "\n").

Definition frontmatter_only_instructions : File :=
  mkFile (py "python.instructions.md") (py "---\napplyTo: **/*.py\n---").

Definition blank_general : str := py " \n\n".

Definition copilot_general : str :=
  py "\n---\ntitle: x\n---\n## General\n\nBe kind.\n".

End Examples.

Unset Implicit Arguments.

(** * Properties *)

(** ** Strings *)

Lemma eqb_eq (a b : str) : Py.eqb a b = true <-> a = b.
Proof.
  revert b; induction a as [|x a IH]; intros [|y b]; simpl;
    try (split; [discriminate | congruence]); try tauto.
  rewrite andb_true_iff, N.eqb_eq, IH.
  split; [intros [-> ->]|intros [= -> ->]]; auto.
Qed.

Lemma eqb_refl (a : str) : Py.eqb a a = true.
Proof. now apply eqb_eq. Qed.

Lemma eqb_neq (a b : str) : Py.eqb a b = false <-> a <> b.
Proof.
  rewrite <- eqb_eq. destruct (Py.eqb a b); split; congruence.
Qed.

Lemma linebreak_isspace (c : char) :
  Py.islinebreak c = true -> Py.isspace c = true.
Proof.
  unfold Py.islinebreak, Py.isspace.
  rewrite !orb_true_iff, !andb_true_iff, !N.leb_le, !N.eqb_eq. lia.
Qed.

(** *** The order on strings *)

Lemma ltb_irrefl (a : str) : Py.ltb a a = false.
Proof.
  induction a as [|x a IH]; simpl; auto.
  rewrite N.ltb_irrefl, N.eqb_refl, IH. reflexivity.
Qed.

Lemma ltb_asym (a b : str) : Py.ltb a b = true -> Py.ltb b a = false.
Proof.
  revert b; induction a as [|x a IH]; intros [|y b]; simpl; auto;
    try discriminate.
  rewrite orb_true_iff, andb_true_iff, N.ltb_lt, N.eqb_eq.
  intros [H|[-> H]].
  - apply orb_false_iff; split.
    + apply N.ltb_ge; lia.
    + apply andb_false_iff; left. apply N.eqb_neq; lia.
  - rewrite N.ltb_irrefl, N.eqb_refl; simpl. now apply IH.
Qed.

(** [a <= b] is [ltb b a = false]; it is transitive. *)
Lemma leb_trans (a b c : str) :
  Py.ltb b a = false -> Py.ltb c b = false -> Py.ltb c a = false.
Proof.
  revert b c; induction a as [|x a IH]; intros [|y b] [|z c]; simpl; auto;
    try discriminate.
  rewrite !orb_false_iff, !andb_false_iff, !N.ltb_ge, !N.eqb_neq.
  intros [H1 H2] [H3 H4]. split; [lia|].
  destruct (N.eq_dec z x) as [->|Hzx]; [right|now left].
  assert (y = x) by lia; subst y.
  destruct H2 as [H2|H2]; [congruence|].
  destruct H4 as [H4|H4]; [congruence|].
  eapply IH; eauto.
Qed.

Lemma ltb_total (a b : str) :
  Py.ltb a b = false -> Py.ltb b a = false -> a = b.
Proof.
  revert b; induction a as [|x a IH]; intros [|y b]; simpl; auto;
    try discriminate.
  rewrite !orb_false_iff, !andb_false_iff, !N.ltb_ge, !N.eqb_neq.
  intros [H1 H2] [H3 H4].
  assert (x = y) by lia; subst y.
  destruct H2 as [H2|H2]; [congruence|].
  destruct H4 as [H4|H4]; [congruence|].
  f_equal. now apply IH.
Qed.

(** *** Lines *)

Lemma join_cons (sep p : str) (ps : list str) :
  ps <> [] -> Py.join sep (p :: ps) = p ++ sep ++ Py.join sep ps.
Proof. destruct ps; [congruence | reflexivity]. Qed.

Lemma join_cons_length (sep p : str) (ps : list str) :
  length p + length (Py.join sep ps) <= length (Py.join sep (p :: ps)).
Proof.
  destruct ps as [|q ps].
  - simpl. lia.
  - change (Py.join sep (p :: q :: ps))
      with (p ++ sep ++ Py.join sep (q :: ps)).
    rewrite !length_app. lia.
Qed.

Lemma join_skipn_length (sep : str) (k : nat) (ps : list str) :
  length (Py.join sep (skipn k ps)) <= length (Py.join sep ps).
Proof.
  revert ps; induction k as [|k IH]; intros [|p ps]; simpl skipn; auto.
  specialize (IH ps). pose proof (join_cons_length sep p ps). lia.
Qed.

Lemma dropwhile_skipn (A : Type) (p : A -> bool) (l : list A) :
  exists k, Py.dropwhile p l = skipn k l.
Proof.
  induction l as [|x l [k IH]]; simpl.
  - now exists 0.
  - destruct (p x); [now exists (S k) | now exists 0].
Qed.

Lemma dropwhile_length (A : Type) (p : A -> bool) (l : list A) :
  length (Py.dropwhile p l) <= length l.
Proof.
  induction l as [|x l IH]; simpl; auto.
  destruct (p x); simpl; lia.
Qed.

Lemma dropwhile_app (A : Type) (p : A -> bool) (l1 l2 : list A) :
  Forall (fun x => p x = true) l1 ->
  Py.dropwhile p (l1 ++ l2) = Py.dropwhile p l2.
Proof.
  induction 1 as [|x l1 Hx _ IH]; simpl; auto.
  now rewrite Hx.
Qed.

Lemma dropwhile_stop (A : Type) (p : A -> bool) (l : list A) :
  match l with [] => True | x :: _ => p x = false end ->
  Py.dropwhile p l = l.
Proof.
  destruct l as [|x l]; simpl; auto. intros H. now rewrite H.
Qed.

Lemma join_nil_cons_length (ps : list str) :
  length (Py.join [Py.LF] ([] :: ps)) <= S (length (Py.join [Py.LF] ps)).
Proof. destruct ps; simpl; lia. Qed.

Lemma join_char_cons_length (c : char) (p : str) (ps : list str) :
  length (Py.join [Py.LF] ((c :: p) :: ps))
  = S (length (Py.join [Py.LF] (p :: ps))).
Proof. destruct ps; reflexivity. Qed.

(** Joining the lines of a text with line feeds never makes it longer. *)
Lemma join_splitlines_length (s : str) :
  length (Py.join [Py.LF] (Py.splitlines s)) <= length s.
Proof.
  assert (Hle : length s <= length s) by lia.
  revert Hle. generalize (length s) at 2 as n. intros n; revert s.
  induction n as [|n IH]; intros [|c s] Hle;
    try (simpl in *; lia).
  cbn [length] in Hle. cbn [Py.splitlines length].
  destruct (Py.islinebreak c).
  - etransitivity; [apply join_nil_cons_length|]. apply le_n_S.
    destruct s as [|d s'']; [simpl; lia|].
    destruct ((c =? Py.CR)%N && (d =? Py.LF)%N).
    + specialize (IH s''). cbn [length] in Hle |- *. lia.
    + apply IH. lia.
  - specialize (IH s ltac:(lia)).
    destruct (Py.splitlines s) as [|l ls]; [simpl; lia|].
    rewrite join_char_cons_length. lia.
Qed.

Lemma hd_splitlines_cons (c : char) (s : str) :
  Py.islinebreak c = false ->
  hd [] (Py.splitlines (c :: s)) = c :: hd [] (Py.splitlines s).
Proof.
  intros H. simpl. rewrite H. now destruct (Py.splitlines s).
Qed.

(** A prefix free of line boundaries is a prefix of the text exactly when
    it is a prefix of its first line. *)
Lemma startswith_first_line (p s : str) :
  Forall (fun c => Py.islinebreak c = false) p ->
  Py.startswith (hd [] (Py.splitlines s)) p = Py.startswith s p.
Proof.
  intros Hp; revert s; induction Hp as [|y p Hy _ IH]; intros s.
  - now destruct (hd [] (Py.splitlines s)), s.
  - destruct s as [|c s]; [reflexivity|].
    destruct (Py.islinebreak c) eqn:Hc.
    + simpl. rewrite Hc. simpl.
      destruct (N.eqb_spec c y); [congruence | reflexivity].
    + rewrite hd_splitlines_cons by assumption. simpl. now rewrite IH.
Qed.

Lemma splitlines_nil (s : str) : Py.splitlines s = [] -> s = [].
Proof.
  destruct s as [|c s]; auto. simpl.
  destruct (Py.islinebreak c); [discriminate|].
  destruct (Py.splitlines s); discriminate.
Qed.

(** ** The frontmatter stripper *)

Lemma skipn_succ_middle (A : Type) (pre : list A) (x : A) (post : list A) :
  skipn (length pre + 1) (pre ++ x :: post) = post.
Proof.
  induction pre as [|y pre IH]; simpl; auto.
Qed.

(** The index loop finds the first delimiter among the lines still to
    visit, and the slice taken there is what follows that delimiter. *)
Lemma next_delimiter_seq (pre rest : list str) :
  option_map (fun i => skipn (i + 1) (pre ++ rest))
    (next_delimiter (pre ++ rest) (seq (length pre) (length rest)))
  = after_delimiter rest.
Proof.
  revert pre; induction rest as [|l ls IH]; intros pre; simpl; auto.
  rewrite nth_middle.
  destruct (is_delimiter l).
  - simpl. now rewrite skipn_succ_middle.
  - specialize (IH (pre ++ [l])).
    rewrite <- app_assoc, length_app in IH. simpl in IH.
    now rewrite Nat.add_1_r in IH.
Qed.

(** [strip_yaml_frontmatter] without indices. *)
Lemma strip_yaml_frontmatter_eq (text : str) :
  strip_yaml_frontmatter text =
  match Py.splitlines text with
  | first :: rest =>
      if is_delimiter first then
        match after_delimiter rest with
        | Some after => Py.lstrip_chars (py "\n") (Py.join (py "\n") after)
        | None => text
        end
      else text
  | [] => text
  end.
Proof.
  unfold strip_yaml_frontmatter.
  destruct (Py.splitlines text) as [|first rest]; auto.
  destruct (is_delimiter first); auto.
  pose proof (next_delimiter_seq [first] rest) as H.
  cbn [length app] in H.
  replace (length (first :: rest) - 1) with (length rest) by (simpl; lia).
  destruct (next_delimiter (first :: rest) (seq 1 (length rest))) as [i|];
    simpl in H; rewrite <- H; reflexivity.
Qed.

Lemma after_delimiter_split (lines after : list str) :
  after_delimiter lines = Some after <->
  exists meta closing,
    lines = meta ++ closing :: after
    /\ Forall (fun l => is_delimiter l = false) meta
    /\ is_delimiter closing = true.
Proof.
  split.
  - revert after; induction lines as [|l ls IH]; intros after; simpl;
      [discriminate|].
    destruct (is_delimiter l) eqn:Hl.
    + intros [= ->]. now exists [], l.
    + intros H. destruct (IH _ H) as (meta & closing & -> & Hm & Hc).
      exists (l :: meta), closing. auto.
  - intros (meta & closing & -> & Hm & Hc).
    induction Hm as [|l meta Hl _ IH]; simpl.
    + now rewrite Hc.
    + now rewrite Hl.
Qed.

Lemma after_delimiter_none (lines : list str) :
  after_delimiter lines = None <-> existsb is_delimiter lines = false.
Proof.
  induction lines as [|l ls IH]; simpl; [tauto|].
  destruct (is_delimiter l); simpl; [split; discriminate | exact IH].
Qed.

Lemma after_delimiter_length (sep : str) (lines after : list str) :
  after_delimiter lines = Some after ->
  length (Py.join sep after) <= length (Py.join sep lines).
Proof.
  intros H. apply after_delimiter_split in H.
  destruct H as (meta & closing & -> & _ & _).
  rewrite <- (skipn_succ_middle _ meta closing after) at 1.
  apply join_skipn_length.
Qed.

Lemma is_delimiter_nonempty (l : str) : is_delimiter l = true -> l <> [].
Proof. intros H ->. discriminate H. Qed.

Lemma startswith_nonempty (l p : str) :
  p <> [] -> Py.startswith l p = true -> l <> [].
Proof. intros Hp H ->. destruct p; [congruence | discriminate H]. Qed.

(** Dropping a non-empty first line makes the joined text shorter than
    the text the lines came from. *)
Lemma join_tail_shorter (text first : str) (rest : list str) :
  Py.splitlines text = first :: rest -> first <> [] ->
  length (Py.join (py "\n") rest) < length text.
Proof.
  intros Hl Hf.
  pose proof (join_splitlines_length text) as H. rewrite Hl in H.
  pose proof (join_cons_length [Py.LF] first rest) as H'.
  change (py "\n") with [Py.LF].
  destruct first; [congruence|]. cbn [length] in H'. lia.
Qed.

(** The frontmatter stripper leaves a text alone exactly when the text
    does not open with a metadata block. *)
Lemma strip_yaml_frontmatter_fixed (text : str) :
  strip_yaml_frontmatter text = text <-> has_frontmatter text = false.
Proof.
  rewrite strip_yaml_frontmatter_eq. unfold has_frontmatter.
  destruct (Py.splitlines text) as [|first rest] eqn:Hl; [tauto|].
  destruct (is_delimiter first) eqn:Hf; simpl; [|tauto].
  rewrite <- after_delimiter_none.
  destruct (after_delimiter rest) as [after|] eqn:Ha; [|tauto].
  split; [|discriminate]. intros H. exfalso.
  pose proof (join_tail_shorter _ _ _ Hl (is_delimiter_nonempty _ Hf)) as Hlt.
  pose proof (after_delimiter_length (py "\n") _ _ Ha) as Hle.
  assert (Hd : length (Py.lstrip_chars [Py.LF] (Py.join [Py.LF] after))
               <= length (Py.join [Py.LF] after))
    by apply dropwhile_length.
  change (py "\n") with [Py.LF] in *. rewrite H in Hd. lia.
Qed.

(** ** The header stripper *)

Lemma strip_header_fixed (text : str) :
  strip_header text = text <-> has_header text = false.
Proof.
  unfold strip_header, has_header, first_line.
  destruct (Py.splitlines text) as [|first rest] eqn:Hl; cbn [hd];
    [tauto|].
  destruct (Py.startswith first (py "## ")) eqn:Hf; [|tauto].
  split; [|discriminate]. intros H. exfalso.
  assert (Hne : first <> []).
  { eapply startswith_nonempty; [|exact Hf]. discriminate. }
  pose proof (join_tail_shorter _ _ _ Hl Hne) as Hlt.
  destruct (dropwhile_skipn _ is_blank rest) as [k Hk].
  pose proof (join_skipn_length (py "\n") k rest) as Hle.
  rewrite <- Hk, H in Hle. lia.
Qed.

Lemma has_header_prefix (text : str) :
  has_header text = Py.startswith text (py "## ").
Proof.
  unfold has_header, first_line. apply startswith_first_line.
  repeat constructor.
Qed.

(** ** The strippers: claims *)

(** C10.  A text whose first line is a delimiter and which has no delimiter
    line after it comes back from the frontmatter stripper unchanged:
    nothing is discarded when the metadata block is not closed. *)
Theorem strip_yaml_frontmatter_unterminated
    (text first : str) (rest : list str) :
  Py.splitlines text = first :: rest ->
  is_delimiter first = true ->
  Forall (fun l => is_delimiter l = false) rest ->
  strip_yaml_frontmatter text = text.
Proof.
  intros Hl Hf Hrest. rewrite strip_yaml_frontmatter_eq, Hl, Hf.
  assert (Hn : after_delimiter rest = None).
  { apply after_delimiter_none. clear Hl.
    induction Hrest as [|l ls Hd _ IH]; cbn [existsb]; auto.
    rewrite Hd. exact IH. }
  now rewrite Hn.
Qed.

Lemma strip_yaml_frontmatter_unterminated_witness :
  strip_yaml_frontmatter (py "---\ntitle: x\nBody") = py "---\ntitle: x\nBody".
Proof.
  apply (strip_yaml_frontmatter_unterminated _
           (py "---") [py "title: x"; py "Body"]);
    [reflexivity | reflexivity | repeat constructor].
Defined.

(** C5, as the code has it.  A line counts as a delimiter when it is [---]
    once the white space around it is trimmed.  When the first line is a
    delimiter and a later line is one too, the stripper returns the lines
    after the first such later line, joined by line feeds, without the
    line feeds at their start.  When the first line is not a delimiter the
    text comes back unchanged. *)
Theorem strip_yaml_frontmatter_contract (text : str) :
  (forall (first : str) (meta : list str) (closing : str) (rest : list str),
      Py.splitlines text = first :: meta ++ closing :: rest ->
      is_delimiter first = true ->
      Forall (fun l => is_delimiter l = false) meta ->
      is_delimiter closing = true ->
      strip_yaml_frontmatter text
      = Py.lstrip_chars (py "\n") (Py.join (py "\n") rest))
  /\ (is_delimiter (first_line text) = false ->
      strip_yaml_frontmatter text = text).
Proof.
  split.
  - intros first meta closing rest Hl Hf Hm Hc.
    rewrite strip_yaml_frontmatter_eq, Hl, Hf.
    assert (Ha : after_delimiter (meta ++ closing :: rest) = Some rest).
    { apply after_delimiter_split. now exists meta, closing. }
    now rewrite Ha.
  - unfold first_line. rewrite strip_yaml_frontmatter_eq.
    destruct (Py.splitlines text) as [|first rest]; cbn [hd]; auto.
    now intros ->.
Qed.

Lemma strip_yaml_frontmatter_contract_witness :
  strip_yaml_frontmatter (py " ---\ntitle: x\n--- \n\n\nBody\n---\nmore")
  = py "Body\n---\nmore"
  /\ strip_yaml_frontmatter (py "Body\n---\nmore\n---\n")
     = py "Body\n---\nmore\n---\n".
Proof.
  split.
  - apply (proj1 (strip_yaml_frontmatter_contract _)
             (py " ---") [py "title: x"] (py "--- ")
             [py ""; py ""; py "Body"; py "---"; py "more"]);
      [reflexivity | reflexivity | repeat constructor | reflexivity].
  - apply (proj2 (strip_yaml_frontmatter_contract _)). reflexivity.
Defined.

(** C5 as stated fails: here the first line is [---] followed by a space,
    which is not exactly the marker, and the metadata block is removed all
    the same. *)
Lemma strip_yaml_frontmatter_trims_delimiter :
  first_line (py "--- \ntitle: x\n---\nBody") <> py "---"
  /\ strip_yaml_frontmatter (py "--- \ntitle: x\n---\nBody") = py "Body"
  /\ strip_yaml_frontmatter (py "--- \ntitle: x\n---\nBody")
     <> py "--- \ntitle: x\n---\nBody".
Proof.
  repeat split; [discriminate | discriminate].
Qed.

(** C4, as the code has it.  Only the very first line is looked at.  When
    it begins with [## ], the stripper returns the lines after it and
    after the blank lines that follow it directly, joined by line feeds.
    Every other text comes back unchanged, also when a header stands
    further down. *)
Theorem strip_header_contract (text : str) :
  (forall (first : str) (blanks body : list str),
      Py.splitlines text = first :: blanks ++ body ->
      Py.startswith first (py "## ") = true ->
      Forall (fun l => is_blank l = true) blanks ->
      (forall l body', body = l :: body' -> is_blank l = false) ->
      strip_header text = Py.join (py "\n") body)
  /\ (Py.startswith (first_line text) (py "## ") = false ->
      strip_header text = text).
Proof.
  split.
  - intros first blanks body Hl Hf Hb Hbody.
    unfold strip_header. rewrite Hl, Hf.
    rewrite dropwhile_app by assumption.
    rewrite dropwhile_stop; [reflexivity|].
    destruct body as [|l body']; [exact I | eauto].
  - intros H. now apply strip_header_fixed.
Qed.

Lemma strip_header_contract_witness :
  strip_header (py "## Title\n\n \nBody\n\n## Later\nmore")
  = py "Body\n\n## Later\nmore"
  /\ strip_header (py "Intro\n## Later\nmore") = py "Intro\n## Later\nmore".
Proof.
  split.
  - apply (proj1 (strip_header_contract _)
             (py "## Title") [py ""; py " "]
             [py "Body"; py ""; py "## Later"; py "more"]);
      [reflexivity | reflexivity | repeat constructor | ].
    intros l body' [= <- _]. reflexivity.
  - apply (proj2 (strip_header_contract _)). reflexivity.
Defined.

(** C4 as stated fails: the first non-blank line of this text is a header,
    yet the text comes back unchanged because its first line is empty. *)
Lemma strip_header_first_line_only :
  first_non_blank_line (py "\n## Title\nBody") = Some (py "## Title")
  /\ strip_header (py "\n## Title\nBody") = py "\n## Title\nBody"
  /\ strip_header (py "\n## Title\nBody") <> py "Body".
Proof.
  repeat split. discriminate.
Qed.

(** C3, as the code has it.  A stripper applied a second time changes
    nothing exactly when the text it produced the first time does not
    open with a metadata block (frontmatter stripper), or with a line
    that begins with [## ] (header stripper). *)
Theorem strippers_second_pass (text : str) :
  (strip_yaml_frontmatter (strip_yaml_frontmatter text)
   = strip_yaml_frontmatter text
   <-> has_frontmatter (strip_yaml_frontmatter text) = false)
  /\ (strip_header (strip_header text) = strip_header text
      <-> has_header (strip_header text) = false).
Proof.
  split; [apply strip_yaml_frontmatter_fixed | apply strip_header_fixed].
Qed.

(** C3 as stated fails for both strippers: each pass removes one block, and
    a second block may stand right behind the first. *)
Lemma strippers_not_idempotent :
  strip_yaml_frontmatter (py "---\na\n---\n---\nb\n---\nBody")
  = py "---\nb\n---\nBody"
  /\ strip_yaml_frontmatter
       (strip_yaml_frontmatter (py "---\na\n---\n---\nb\n---\nBody"))
     = py "Body"
  /\ strip_header (py "## A\n## B\nBody") = py "## B\nBody"
  /\ strip_header (strip_header (py "## A\n## B\nBody")) = py "Body"
  /\ strip_yaml_frontmatter
       (strip_yaml_frontmatter (py "---\na\n---\n---\nb\n---\nBody"))
     <> strip_yaml_frontmatter (py "---\na\n---\n---\nb\n---\nBody")
  /\ strip_header (strip_header (py "## A\n## B\nBody"))
     <> strip_header (py "## A\n## B\nBody").
Proof.
  repeat split; discriminate.
Qed.

(** ** Dictionaries *)

Section DictFacts.

Variable V : Type.
Implicit Types (d : Py.dict V) (k : str) (v : V).

Lemma dict_set_fresh d k v :
  ~ In k (map fst d) -> Py.dict_set d k v = d ++ [(k, v)].
Proof.
  induction d as [|[k' v'] d IH]; simpl; auto.
  intros H. destruct (Py.eqb k' k) eqn:E.
  - apply eqb_eq in E. tauto.
  - rewrite IH; tauto.
Qed.

Lemma dict_get_in d k v :
  NoDup (map fst d) -> (Py.dict_get d k = Some v <-> In (k, v) d).
Proof.
  induction d as [|[k' v'] d IH]; simpl.
  - intros _. split; [discriminate | tauto].
  - intros H. inversion H as [|? ? Hk Hd]; subst.
    destruct (Py.eqb k' k) eqn:E.
    + apply eqb_eq in E; subst k'. split.
      * intros [= ->]. now left.
      * intros [[= ->]|Hin]; auto.
        exfalso. apply Hk. now apply (in_map fst) in Hin.
    + apply eqb_neq in E. rewrite (IH Hd). split; [tauto|].
      intros [[= -> ->]|Hin]; [congruence | exact Hin].
Qed.

Lemma dict_get_none d k :
  Py.dict_get d k = None <-> ~ In k (map fst d).
Proof.
  induction d as [|[k' v'] d IH]; simpl; [tauto|].
  destruct (Py.eqb k' k) eqn:E.
  - apply eqb_eq in E. split; [discriminate | tauto].
  - apply eqb_neq in E. rewrite IH. tauto.
Qed.

Lemma dict_del_filter d k :
  NoDup (map fst d) ->
  Py.dict_del d k = filter (fun e => negb (Py.eqb (fst e) k)) d.
Proof.
  induction d as [|[k' v'] d IH]; simpl; auto.
  intros H. inversion H as [|? ? Hk Hd]; subst.
  destruct (Py.eqb k' k) eqn:E; simpl.
  - apply eqb_eq in E; subst k'.
    symmetry. apply forallb_filter_id, forallb_forall.
    intros [k'' v''] Hin. simpl. apply negb_true_iff, eqb_neq.
    intros ->. apply Hk. now apply (in_map fst) in Hin.
  - now rewrite IH.
Qed.

Lemma dict_del_absent d k :
  Py.dict_get d k = None -> Py.dict_del d k = d.
Proof.
  induction d as [|[k' v'] d IH]; simpl; auto.
  destruct (Py.eqb k' k); [discriminate|].
  intros H. now rewrite IH.
Qed.

Lemma filter_keys_nodup (p : str * V -> bool) d :
  NoDup (map fst d) -> NoDup (map fst (filter p d)).
Proof.
  induction d as [|e d IH]; simpl; auto.
  intros H. inversion H as [|? ? Hk Hd]; subst.
  destruct (p e); simpl; auto.
  constructor; auto.
  intros Hin. apply Hk. apply in_map_iff in Hin.
  destruct Hin as (e' & <- & Hin). apply filter_In in Hin.
  now apply in_map.
Qed.

Lemma dict_del_nodup d k :
  NoDup (map fst d) -> NoDup (map fst (Py.dict_del d k)).
Proof.
  intros H. rewrite dict_del_filter by assumption.
  now apply filter_keys_nodup.
Qed.

Lemma dict_get_perm d k v :
  Py.dict_get d k = Some v ->
  Permutation (map snd d) (v :: map snd (Py.dict_del d k)).
Proof.
  induction d as [|[k' v'] d IH]; simpl; [discriminate|].
  destruct (Py.eqb k' k).
  - intros [= ->]. reflexivity.
  - intros H. simpl. rewrite (IH H). apply perm_swap.
Qed.

End DictFacts.

Lemma filter_filter (A : Type) (p q : A -> bool) (l : list A) :
  filter p (filter q l) = filter (fun x => q x && p x) l.
Proof.
  induction l as [|x l IH]; simpl; auto.
  destruct (q x); simpl; [destruct (p x)|]; now rewrite IH.
Qed.

(** ** Order of appearance *)

Section Precedes.

Variable A : Type.
Implicit Types (x y z : A) (l : list A).


Lemma precedes_head x y l : In y l -> precedes x y (x :: l).
Proof.
  intros H. apply in_split in H. destruct H as (l2 & l3 & ->).
  now exists [], l2, l3.
Qed.


Lemma precedes_app_r x y l l' : precedes x y l' -> precedes x y (l ++ l').
Proof.
  intros (l1 & l2 & l3 & ->). exists (l ++ l1), l2, l3.
  now rewrite <- app_assoc.
Qed.

Lemma precedes_app_in x y l l' :
  In x l -> In y l' -> precedes x y (l ++ l').
Proof.
  intros Hx Hy. apply in_split in Hx. destruct Hx as (l1 & l2 & ->).
  apply in_split in Hy. destruct Hy as (l3 & l4 & ->).
  exists l1, (l2 ++ l3), l4.
  rewrite <- !app_assoc. reflexivity.
Qed.

Lemma precedes_in x y l : precedes x y l -> In x l /\ In y l.
Proof.
  intros (l1 & l2 & l3 & ->). split.
  - apply in_elt.
  - apply in_or_app. right. right. apply in_elt.
Qed.

(** In a list without repetition two elements stand in one order
    only. *)
Lemma precedes_asym x y l : NoDup l -> precedes x y l -> ~ precedes y x l.
Proof.
  intros Hnd (l1 & l2 & l3 & ->) (m1 & m2 & m3 & E).
  assert (Hx : ~ In x (l1 ++ l2 ++ y :: l3))
    by (apply NoDup_remove_2; exact Hnd).
  revert m1 Hnd E Hx. induction l1 as [|a l1 IH]; intros m1 Hnd E Hx.
  - simpl in *. destruct m1 as [|b m1]; simpl in E.
    + injection E as E1 E2. subst y. apply Hx.
      apply in_or_app. right. now left.
    + injection E as E1 E2. subst b.
      assert (Hin : In x (l2 ++ y :: l3)).
      { rewrite E2. apply in_or_app. right. right. apply in_elt. }
      contradiction.
  - destruct m1 as [|b m1]; simpl in E.
    + injection E as E1 E2. subst a.
      inversion Hnd as [|? ? Hy _]; subst. apply Hy.
      apply in_or_app. right. right. apply in_or_app. right. now left.
    + injection E as E1 E2. subst b.
      apply (IH m1).
      * now inversion Hnd.
      * exact E2.
      * intros Hin. apply Hx. now right.
Qed.

End Precedes.

(** ** Sorting *)

Section SortedFacts.

Variable A : Type.
Variable key : A -> str.

Lemma insert_perm (x : A) (l : list A) :
  Permutation (Py.insert key x l) (x :: l).
Proof.
  induction l as [|y l IH]; simpl; auto.
  destruct (Py.ltb (key y) (key x)); auto.
  rewrite IH. apply perm_swap.
Qed.

Lemma sorted_perm (l : list A) : Permutation (Py.sorted key l) l.
Proof.
  induction l as [|x l IH]; simpl; auto.
  rewrite insert_perm. now constructor.
Qed.

Lemma insert_sorted (x : A) (l : list A) :
  StronglySorted (key_le key) l -> StronglySorted (key_le key) (Py.insert key x l).
Proof.
  induction 1 as [|y l Hs IH Hy]; simpl.
  - constructor; constructor.
  - destruct (Py.ltb (key y) (key x)) eqn:E.
    + constructor; auto.
      eapply Permutation_Forall; [symmetry; apply insert_perm|].
      constructor; auto. now apply ltb_asym.
    + constructor; [now constructor|].
      constructor; auto.
      eapply Forall_impl; [|exact Hy].
      intros z Hz. unfold key_le in *. eapply leb_trans; eauto.
Qed.

Lemma sorted_sorted (l : list A) : StronglySorted (key_le key) (Py.sorted key l).
Proof.
  induction l as [|x l IH]; simpl; [constructor|].
  now apply insert_sorted.
Qed.

Lemma sorted_before (l1 l2 : list A) (x y : A) :
  StronglySorted (key_le key) (l1 ++ x :: l2) -> In y l1 -> key_le key y x.
Proof.
  induction l1 as [|a l1 IH]; simpl; [tauto|].
  intros H [->|Hin].
  - apply StronglySorted_inv in H. destruct H as [_ H].
    rewrite Forall_forall in H. apply H, in_elt.
  - apply StronglySorted_inv in H. now apply IH.
Qed.

(** After sorting, a smaller key stands before a greater one. *)
Lemma sorted_precedes (l : list A) (x y : A) :
  In x l -> In y l -> Py.ltb (key x) (key y) = true ->
  precedes x y (Py.sorted key l).
Proof.
  intros Hx Hy Hlt.
  pose proof (sorted_sorted l) as Hs.
  assert (Hx' : In x (Py.sorted key l))
    by (eapply Permutation_in; [symmetry; apply sorted_perm | exact Hx]).
  assert (Hy' : In y (Py.sorted key l))
    by (eapply Permutation_in; [symmetry; apply sorted_perm | exact Hy]).
  apply in_split in Hx'. destruct Hx' as (l1 & l2 & E).
  rewrite E in Hs, Hy' |- *.
  apply in_app_or in Hy'. destruct Hy' as [Hin|[->|Hin]].
  - pose proof (sorted_before _ _ _ _ Hs Hin) as Hle.
    unfold key_le in Hle. congruence.
  - rewrite ltb_irrefl in Hlt. discriminate.
  - apply precedes_app_r, precedes_head, Hin.
Qed.

Lemma insert_least (x : A) (l : list A) :
  Forall (key_le key x) l -> Py.insert key x l = x :: l.
Proof.
  destruct 1 as [|y l Hy _]; simpl; auto.
  unfold key_le in Hy. now rewrite Hy.
Qed.

(** The stable sort commutes with dropping elements. *)
Lemma insert_filter (p : A -> bool) (x : A) (l : list A) :
  StronglySorted (key_le key) l ->
  filter p (Py.insert key x l)
  = if p x then Py.insert key x (filter p l) else filter p l.
Proof.
  induction 1 as [|y l Hs IH Hy]; simpl.
  - now destruct (p x).
  - destruct (Py.ltb (key y) (key x)) eqn:E; simpl.
    + rewrite IH. destruct (p y), (p x); simpl; now rewrite ?E.
    + destruct (p x) eqn:Px, (p y) eqn:Py; simpl; rewrite ?E; auto.
      symmetry. apply insert_least.
      apply Forall_forall. intros z Hz. apply filter_In in Hz.
      rewrite Forall_forall in Hy. unfold key_le in *.
      eapply leb_trans; [exact E | apply Hy, Hz].
Qed.

Lemma sorted_filter (p : A -> bool) (l : list A) :
  Py.sorted key (filter p l) = filter p (Py.sorted key l).
Proof.
  induction l as [|x l IH]; simpl; auto.
  rewrite insert_filter by apply sorted_sorted.
  destruct (p x); simpl; now rewrite IH.
Qed.

End SortedFacts.

(** ** The ordering function *)

Lemma eqb_sym (a b : str) : Py.eqb a b = Py.eqb b a.
Proof.
  destruct (Py.eqb a b) eqn:E.
  - apply eqb_eq in E. subst. now rewrite eqb_refl.
  - symmetry. apply eqb_neq. apply eqb_neq in E. congruence.
Qed.

Lemma map_fst_entry (fl : list File) : map fst (map entry fl) = map stem fl.
Proof. rewrite map_map. reflexivity. Qed.


Lemma in_entry (s : str) (f : File) (fl : list File) :
  In (s, f) (map entry fl) <-> s = stem f /\ In f fl.
Proof.
  rewrite in_map_iff. split.
  - intros (g & [= <- <-] & Hin). auto.
  - intros [-> Hin]. now exists f.
Qed.

(** With distinct identifiers the dictionary comprehension keeps every
    file, in the order of the listing. *)
Lemma file_dict_entries (fl : list File) (d : Py.dict File) :
  NoDup (map fst d ++ map stem fl) ->
  fold_left (fun d f => Py.dict_set d (stem f) f) fl d = d ++ map entry fl.
Proof.
  revert d; induction fl as [|f fl IH]; intros d H; simpl.
  - now rewrite app_nil_r.
  - simpl in H. rewrite dict_set_fresh.
    + rewrite IH.
      * now rewrite <- app_assoc.
      * rewrite map_app, <- app_assoc. exact H.
    + apply NoDup_remove_2 in H. intros Hin. apply H.
      apply in_or_app. now left.
Qed.

Section OrderingFacts.

Variable h : str -> str.

Lemma unpicked_nil (d : Py.dict File) : unpicked h [] d = d.
Proof.
  apply forallb_filter_id, forallb_forall. reflexivity.
Qed.

Lemma unpicked_cons (k : str) (keys : list str) (d : Py.dict File) :
  NoDup (map fst d) ->
  unpicked h (k :: keys) d
  = unpicked h keys (Py.dict_del d (h k)).
Proof.
  intros H. unfold unpicked.
  rewrite dict_del_filter by assumption. rewrite filter_filter.
  apply filter_ext. intros [s f]. simpl.
  unfold names. rewrite negb_orb, (eqb_sym s). reflexivity.
Qed.

(** The loop over the section names, in one equation. *)
Lemma take_sections_eq (keys : list str) (d : Py.dict File)
    (ord : list File) :
  NoDup (map fst d) ->
  take_sections h keys d ord
  = (unpicked h keys d, ord ++ picks h keys d).
Proof.
  revert d ord; induction keys as [|k keys IH]; intros d ord H.
  - simpl. now rewrite unpicked_nil, app_nil_r.
  - rewrite unpicked_cons by assumption. simpl.
    destruct (Py.dict_get d (h k)) as [f|] eqn:E.
    + rewrite IH by now apply dict_del_nodup.
      now rewrite <- app_assoc.
    + rewrite IH by assumption.
      now rewrite (dict_del_absent _ _ _ E).
Qed.

Lemma picks_in (keys : list str) (d : Py.dict File) (s : str) (f : File) :
  NoDup (map fst d) -> In (s, f) d ->
  existsb (fun k => names h k s) keys = true ->
  In f (picks h keys d).
Proof.
  revert d; induction keys as [|k keys IH]; intros d Hnd Hin; simpl;
    [discriminate|].
  intros Hm.
  assert (Hrest : names h k s = false -> In f (picks h keys
                    (Py.dict_del d (h k)))).
  { intros Hk. rewrite Hk in Hm. apply IH; auto.
    - now apply dict_del_nodup.
    - rewrite dict_del_filter by assumption. apply filter_In.
      split; auto. simpl. unfold names in Hk.
      now rewrite eqb_sym, Hk. }
  destruct (Py.dict_get d (h k)) as [f0|] eqn:E.
  - destruct (names h k s) eqn:Hk.
    + left. apply eqb_eq in Hk. rewrite Hk in E.
      apply (dict_get_in _ _ _ _ Hnd) in Hin. congruence.
    + right. now apply Hrest.
  - rewrite <- (dict_del_absent _ _ _ E). apply Hrest.
    destruct (names h k s) eqn:Hk; auto.
    apply eqb_eq in Hk. rewrite Hk in E.
    apply (dict_get_in _ _ _ _ Hnd) in Hin. congruence.
Qed.

Lemma picks_matched (keys : list str) (d : Py.dict File) (f : File) :
  NoDup (map fst d) -> In f (picks h keys d) ->
  exists s, In (s, f) d /\ existsb (fun k => names h k s) keys = true.
Proof.
  revert d; induction keys as [|k keys IH]; intros d Hnd; simpl;
    [tauto|].
  destruct (Py.dict_get d (h k)) as [f0|] eqn:E.
  - intros [->|Hin].
    + exists (h k). split.
      * now apply dict_get_in.
      * unfold names. now rewrite eqb_refl.
    + apply IH in Hin; [|now apply dict_del_nodup].
      destruct Hin as (s & Hin & Hm). exists s. split.
      * rewrite dict_del_filter in Hin by assumption.
        now apply filter_In in Hin.
      * rewrite Hm. apply orb_true_r.
  - intros Hin. apply IH in Hin; auto.
    destruct Hin as (s & Hin & Hm). exists s. split; auto.
    rewrite Hm. apply orb_true_r.
Qed.



(** The loop loses no file and makes none up. *)
Lemma picks_unpicked_perm (keys : list str) (d : Py.dict File) :
  NoDup (map fst d) ->
  Permutation (picks h keys d ++ map snd (unpicked h keys d)) (map snd d).
Proof.
  revert d; induction keys as [|k keys IH]; intros d Hnd.
  - now rewrite unpicked_nil.
  - rewrite unpicked_cons by assumption. simpl.
    destruct (Py.dict_get d (h k)) as [f0|] eqn:E.
    + rewrite (dict_get_perm _ _ _ _ E). simpl. constructor.
      apply IH. now apply dict_del_nodup.
    + rewrite (dict_del_absent _ _ _ E). now apply IH.
Qed.

(** [get_ordered_files] on a listing with distinct identifiers. *)
Lemma get_ordered_files_eq (fl : list File) (keys : list str) :
  NoDup (map stem fl) ->
  get_ordered_files h fl keys
  = picks h keys (map entry fl)
    ++ Py.sorted name (map snd (unpicked h keys (map entry fl))).
Proof.
  intros H. unfold get_ordered_files.
  rewrite (file_dict_entries fl []) by exact H. simpl app.
  rewrite take_sections_eq by now rewrite map_fst_entry.
  reflexivity.
Qed.

End OrderingFacts.

Ltac nodup_concrete :=
  vm_compute;
  repeat (constructor; [simpl; intuition discriminate|]); constructor.

Ltac in_concrete := vm_compute; repeat (first [left; reflexivity | right]).

Ltac by_computation := vm_compute; reflexivity.

Section OrderingClaims.

Variable h : str -> str.
Variable fl : list File.
Variable keys : list str.
Hypothesis stems_distinct : NoDup (map stem fl).


Lemma matched_picked (f : File) :
  In f fl -> matched h keys f = true -> In f (picks h keys (map entry fl)).
Proof.
  intros Hin Hm. apply (picks_in h keys _ (stem f)).
  - now rewrite map_fst_entry.
  - now apply in_entry.
  - exact Hm.
Qed.

Lemma unmatched_unpicked (f : File) :
  In f fl -> matched h keys f = false ->
  In f (map snd (unpicked h keys (map entry fl))).
Proof.
  intros Hin Hm. apply in_map_iff. exists (entry f). split; auto.
  apply filter_In. split.
  - now apply in_map.
  - simpl. unfold matched in Hm. now rewrite Hm.
Qed.

Lemma matched_before_unmatched (f g : File) :
  In f fl -> In g fl ->
  matched h keys f = true -> matched h keys g = false ->
  precedes f g (get_ordered_files h fl keys).
Proof.
  intros Hf Hg Mf Mg. rewrite get_ordered_files_eq by assumption.
  apply precedes_app_in.
  - now apply matched_picked.
  - eapply Permutation_in; [symmetry; apply sorted_perm|].
    now apply unmatched_unpicked.
Qed.


Lemma unmatched_by_name (f g : File) :
  In f fl -> In g fl ->
  matched h keys f = false -> matched h keys g = false ->
  Py.ltb (name f) (name g) = true ->
  precedes f g (get_ordered_files h fl keys).
Proof.
  intros Hf Hg Mf Mg Hlt. rewrite get_ordered_files_eq by assumption.
  apply precedes_app_r, sorted_precedes; auto using unmatched_unpicked.
Qed.

End OrderingClaims.



(** C2, as the code has it.  On a listing with distinct identifiers the
    files whose identifier matches no entry of the canonical sequence
    stand after all matching files, and among themselves they are ordered
    by their file name, extension included. *)
Theorem get_ordered_files_extras
    (h : str -> str) (fl : list File) (keys : list str) :
  NoDup (map stem fl) ->
  (forall f g, In f fl -> In g fl ->
     matched h keys f = true -> matched h keys g = false ->
     precedes f g (get_ordered_files h fl keys))
  /\ (forall f g, In f fl -> In g fl ->
        matched h keys f = false -> matched h keys g = false ->
        Py.ltb (name f) (name g) = true ->
        precedes f g (get_ordered_files h fl keys)).
Proof.
  intros H. split.
  - intros f g. now apply matched_before_unmatched.
  - intros f g. now apply unmatched_by_name.
Qed.

Lemma get_ordered_files_extras_witness :
  NoDup (map stem Examples.rules)
  /\ precedes Examples.python_mdc Examples.react_router_mdc
       (get_ordered_files Constants.header_to_filename Examples.rules
          [py "Python"])
  /\ precedes Examples.react_router_mdc Examples.react_mdc
       (get_ordered_files Constants.header_to_filename Examples.rules
          [py "Python"]).
Proof.
  assert (H : NoDup (map stem Examples.rules)) by nodup_concrete.
  pose proof (get_ordered_files_extras Constants.header_to_filename
                Examples.rules [py "Python"] H) as (H1 & H2).
  split; [exact H|]. split.
  - apply H1; [in_concrete | in_concrete | by_computation | by_computation].
  - apply H2; [in_concrete | in_concrete | by_computation ..].
Defined.

(** C2 as stated fails: [react] is smaller than [react-router] as an
    identifier, but the files are sorted by name, and [react-router.mdc]
    is smaller than [react.mdc] because a dash sorts before a dot. *)
Lemma get_ordered_files_not_by_stem :
  get_ordered_files Constants.header_to_filename Examples.rules [py "Python"]
  = [Examples.python_mdc; Examples.react_router_mdc; Examples.react_mdc;
     Examples.zsh_mdc]
  /\ matched Constants.header_to_filename [py "Python"] Examples.react_mdc
     = false
  /\ matched Constants.header_to_filename [py "Python"]
       Examples.react_router_mdc = false
  /\ Py.ltb (stem Examples.react_mdc) (stem Examples.react_router_mdc) = true
  /\ ~ precedes Examples.react_mdc Examples.react_router_mdc
         (get_ordered_files Constants.header_to_filename Examples.rules
            [py "Python"]).
Proof.
  assert (E : get_ordered_files Constants.header_to_filename Examples.rules
                [py "Python"]
              = [Examples.python_mdc; Examples.react_router_mdc;
                 Examples.react_mdc; Examples.zsh_mdc]) by by_computation.
  split; [exact E|]. do 3 (split; [by_computation|]).
  rewrite E. apply precedes_asym.
  - nodup_concrete.
  - now exists [Examples.python_mdc], [], [Examples.zsh_mdc].
Qed.

(** ** Paths *)

Lemma startswith_app (s p : str) :
  Py.startswith s p = true <-> exists t, s = p ++ t.
Proof.
  revert s; induction p as [|y p IH]; intros s; simpl.
  - split; [now exists s | now destruct s].
  - destruct s as [|x s]; simpl.
    + split; [discriminate | intros (t & [=])].
    + rewrite andb_true_iff, N.eqb_eq, IH. split.
      * intros (-> & t & ->). now exists t.
      * intros (t & [= -> ->]). split; [reflexivity | now exists t].
Qed.

Lemma endswith_app (s p : str) :
  Py.endswith s p = true <-> exists t, s = t ++ p.
Proof.
  unfold Py.endswith. rewrite startswith_app. split.
  - intros (t & H). exists (rev t).
    rewrite <- (rev_involutive s), H, rev_app_distr, rev_involutive.
    reflexivity.
  - intros (t & ->). exists (rev t). apply rev_app_distr.
Qed.

Lemma rfind_app (c : char) (s t : str) (i : nat) :
  Py.rfind c t = Some i -> Py.rfind c (s ++ t) = Some (length s + i).
Proof.
  intros H. induction s as [|x s IH]; simpl; auto.
  now rewrite IH.
Qed.

(** The stem of a name in [.mdc] is the name without these four
    characters, unless nothing else is left. *)
Lemma stem_of_mdc (s : str) :
  stem_of (s ++ py ".mdc")
  = match s with [] => py ".mdc" | _ :: _ => s end.
Proof.
  unfold stem_of.
  rewrite (rfind_app _ s (py ".mdc") 0) by reflexivity.
  rewrite Nat.add_0_r, length_app.
  destruct s as [|x s]; [reflexivity|].
  replace ((0 <? length (x :: s))
           && (length (x :: s) <? length (x :: s) + length (py ".mdc") - 1))
    with true.
  - now rewrite firstn_app, Nat.sub_diag, firstn_all, app_nil_r.
  - symmetry. apply andb_true_iff. split; apply Nat.ltb_lt; simpl; lia.
Qed.

Lemma general_name (f : File) :
  Py.endswith (name f) (py ".mdc") = true -> is_general f = true ->
  name f = py "general.mdc".
Proof.
  intros He Hg. apply endswith_app in He. destruct He as (s & Hs).
  unfold is_general, stem in Hg. apply eqb_eq in Hg.
  rewrite Hs, stem_of_mdc in Hg. rewrite Hs.
  destruct s as [|x s]; [discriminate Hg | now rewrite Hg].
Qed.

Lemma nodup_key_eq (A : Type) (key : A -> str) (l : list A) (x y : A) :
  NoDup (map key l) -> In x l -> In y l -> key x = key y -> x = y.
Proof.
  induction l as [|a l IH]; simpl; [tauto|].
  intros H. inversion H as [|? ? Ha Hl]; subst.
  intros [->|Hx] [->|Hy] E; auto.
  - exfalso. apply Ha. rewrite E. now apply in_map.
  - exfalso. apply Ha. rewrite <- E. now apply in_map.
Qed.

Lemma nodup_map_filter (A : Type) (key : A -> str) (p : A -> bool)
    (l : list A) :
  NoDup (map key l) -> NoDup (map key (filter p l)).
Proof.
  induction l as [|a l IH]; simpl; auto.
  intros H. inversion H as [|? ? Ha Hl]; subst.
  destruct (p a); simpl; auto.
  constructor; auto.
  intros Hin. apply Ha. apply in_map_iff in Hin.
  destruct Hin as (b & <- & Hb). apply filter_In in Hb.
  now apply in_map.
Qed.

Lemma nodup_map (A : Type) (key : A -> str) (l : list A) :
  NoDup (map key l) -> NoDup l.
Proof.
  induction l as [|a l IH]; simpl; [constructor|].
  intros H. inversion H as [|? ? Ha Hl]; subst.
  constructor; auto. intros Hin. apply Ha. now apply in_map.
Qed.

(** A filter that only one element of a list without repetition passes
    leaves that element alone. *)
Lemma filter_singleton (A : Type) (p : A -> bool) (l : list A) (x : A) :
  NoDup l -> In x l -> p x = true ->
  (forall y, In y l -> p y = true -> y = x) ->
  filter p l = [x].
Proof.
  induction l as [|a l IH]; simpl; [tauto|].
  intros H. inversion H as [|? ? Ha Hl]; subst.
  intros [->|Hin] Hp Hu.
  - rewrite Hp. f_equal. clear IH Hl H.
    induction l as [|b l IHl]; simpl; auto.
    destruct (p b) eqn:Pb.
    + exfalso. apply Ha. left. apply Hu; simpl; auto.
    + apply IHl.
      * intros Hx. apply Ha. now right.
      * intros y Hy Py. apply Hu; simpl in *; tauto.
  - destruct (p a) eqn:Pa.
    + exfalso. apply Ha. rewrite (Hu a); auto.
    + apply IH; auto.
Qed.

(** ** The bundler *)

Section BundlerFacts.

Variable h2f f2h : str -> str.
Variable keys : list str.

Lemma cursor_step_app (out : str) (f : File) :
  cursor_step f2h out f = out ++ cursor_step f2h [] f.
Proof.
  unfold cursor_step, write.
  destruct (Py.strip (text f)); [now rewrite app_nil_r|].
  destruct (negb (is_general f)); cbn [app]; now rewrite <- !app_assoc.
Qed.

Lemma github_step_app (out : str) (f : File) :
  github_step f2h out f = out ++ github_step f2h [] f.
Proof.
  unfold github_step, write.
  destruct (Py.strip (text f)); [now rewrite app_nil_r|].
  cbn [app]. now rewrite <- !app_assoc.
Qed.

Lemma fold_step_app (step : str -> File -> str) (l : list File) (out : str) :
  (forall out f, step out f = out ++ step [] f) ->
  fold_left step l out = out ++ fold_left step l [].
Proof.
  intros Hs. revert out; induction l as [|f l IH]; intros out; simpl.
  - now rewrite app_nil_r.
  - rewrite IH, (IH (step [] f)), (Hs out f). now rewrite app_assoc.
Qed.

Lemma fold_step_filter (step : str -> File -> str) (p : File -> bool)
    (l : list File) (out : str) :
  (forall out f, p f = false -> step out f = out) ->
  fold_left step (filter p l) out = fold_left step l out.
Proof.
  intros Hs. revert out; induction l as [|f l IH]; intros out; simpl; auto.
  destruct (p f) eqn:E; simpl; rewrite IH; auto.
  now rewrite (Hs out f E).
Qed.

Lemma cursor_step_blank (out : str) (f : File) :
  has_content f = false -> cursor_step f2h out f = out.
Proof.
  unfold has_content, cursor_step.
  now destruct (Py.strip (text f)).
Qed.

Lemma github_step_blank (out : str) (f : File) :
  has_content f = false -> github_step f2h out f = out.
Proof.
  unfold has_content, github_step.
  now destruct (Py.strip (text f)).
Qed.

(** In a directory the file [general.mdc] is the only rule file with the
    identifier [general]. *)
Lemma general_alone (dir : list File) (g : File) :
  NoDup (map name dir) -> In g dir -> name g = py "general.mdc" ->
  filter is_general (glob (py ".mdc") dir) = [g].
Proof.
  intros Hnd Hin Hname. apply filter_singleton.
  - unfold glob. eapply nodup_map, nodup_map_filter, Hnd.
  - apply filter_In. split; auto. now rewrite Hname.
  - unfold is_general, stem. now rewrite Hname.
  - intros y Hy Gy. apply filter_In in Hy. destruct Hy as [Hy Ey].
    apply (nodup_key_eq _ name dir); auto.
    rewrite Hname. now apply general_name.
Qed.

Lemma bundle_cursor_general (dir : list File) (g : File) :
  NoDup (map name dir) -> In g dir -> name g = py "general.mdc" ->
  has_content g = true ->
  bundle_cursor_rules h2f f2h keys dir
  = strip_header (strip_yaml_frontmatter (Py.strip (text g)))
    ++ py "\n\n"
    ++ fold_left (cursor_step f2h)
         (get_ordered_files h2f
            (filter (fun f => negb (is_general f)) (glob (py ".mdc") dir))
            keys) [].
Proof.
  intros Hnd Hin Hname Hc. unfold bundle_cursor_rules.
  rewrite (general_alone dir g) by assumption.
  cbn [app fold_left].
  rewrite fold_step_app by apply cursor_step_app.
  rewrite app_assoc. f_equal.
  unfold cursor_step, has_content in *.
  destruct (Py.strip (text g)); [discriminate|].
  replace (is_general g) with true
    by (unfold is_general, stem; now rewrite Hname).
  reflexivity.
Qed.

Lemma bundle_github_general (raw : str) (dir : list File) :
  Py.strip raw <> [] ->
  bundle_github_instructions h2f f2h keys (Some raw) dir
  = Py.strip raw ++ py "\n\n"
    ++ bundle_github_instructions h2f f2h keys None dir.
Proof.
  intros H. unfold bundle_github_instructions.
  destruct (Py.strip raw) as [|c content] eqn:E; [congruence|].
  rewrite fold_step_app by apply github_step_app.
  unfold write. now rewrite <- app_assoc.
Qed.

End BundlerFacts.

(** C7.  In cursor mode, when the directory holds [general.mdc] and the
    file has content, the output starts with that file's body, the text
    left by the two strippers, followed by a blank line; nothing, and so no
    title line, stands before it.  In github mode the same holds for the
    trimmed text of the fixed general file. *)
Theorem general_fragment_first (h2f f2h : str -> str) (keys : list str) :
  (forall (dir : list File) (g : File),
      NoDup (map name dir) -> In g dir -> name g = py "general.mdc" ->
      has_content g = true ->
      exists rest,
        bundle_cursor_rules h2f f2h keys dir
        = strip_header (strip_yaml_frontmatter (Py.strip (text g)))
          ++ py "\n\n" ++ rest)
  /\ (forall (raw : str) (dir : list File),
        Py.strip raw <> [] ->
        exists rest,
          bundle_github_instructions h2f f2h keys (Some raw) dir
          = Py.strip raw ++ py "\n\n" ++ rest).
Proof.
  split.
  - intros dir g Hnd Hin Hname Hc. eexists.
    now apply bundle_cursor_general.
  - intros raw dir H. eexists. now apply bundle_github_general.
Qed.

Lemma general_fragment_first_witness :
  (exists rest,
      bundle_cursor_rules Constants.header_to_filename
        Constants.filename_to_header [py "A Topic"]
        [Examples.b_topic_mdc; Examples.general_mdc; Examples.a_topic_mdc]
      = strip_header
          (strip_yaml_frontmatter (Py.strip (text Examples.general_mdc)))
        ++ py "\n\n" ++ rest)
  /\ (exists rest,
        bundle_github_instructions Constants.header_to_filename
          Constants.filename_to_header [py "Python"]
          (Some Examples.copilot_general) [Examples.python_instructions]
        = Py.strip Examples.copilot_general ++ py "\n\n" ++ rest).
Proof.
  pose proof (general_fragment_first Constants.header_to_filename
                Constants.filename_to_header [py "A Topic"]) as [H1 _].
  pose proof (general_fragment_first Constants.header_to_filename
                Constants.filename_to_header [py "Python"]) as [_ H2].
  split.
  - apply H1; [nodup_concrete | in_concrete | by_computation ..].
  - apply H2. vm_compute. discriminate.
Defined.

(** C9.  In github mode the text of the general file goes to the output
    with the white space around it trimmed and nothing else done to it:
    the output is that text, a blank line, and what the bundler writes
    when the general file is absent.  No stripper touches it, so a
    metadata block or a header at its start stays. *)
Theorem github_general_verbatim
    (h2f f2h : str -> str) (keys : list str) (raw : str) (dir : list File) :
  Py.strip raw <> [] ->
  bundle_github_instructions h2f f2h keys (Some raw) dir
  = Py.strip raw ++ py "\n\n"
    ++ bundle_github_instructions h2f f2h keys None dir.
Proof.
  intros H. unfold bundle_github_instructions.
  destruct (Py.strip raw) as [|c content] eqn:E; [congruence|].
  rewrite fold_step_app by apply github_step_app.
  unfold write. cbn [app].
  now rewrite <- app_assoc.
Qed.

Lemma github_general_verbatim_witness :
  bundle_github_instructions Constants.header_to_filename
    Constants.filename_to_header [py "Python"]
    (Some Examples.copilot_general) [Examples.python_instructions]
  = py "---\ntitle: x\n---\n## General\n\nBe kind."
    ++ py "\n\n" ++ py "## Python\n\nUse type hints.\n\n".
Proof.
  rewrite github_general_verbatim by (vm_compute; discriminate).
  by_computation.
Defined.

(** ** Fragments without content *)

Lemma filter_comm (A : Type) (p q : A -> bool) (l : list A) :
  filter p (filter q l) = filter q (filter p l).
Proof.
  rewrite !filter_filter. apply filter_ext. intros x. apply andb_comm.
Qed.

Section DropFacts.

Variable h : str -> str.
Variable p : File -> bool.

Lemma map_entry_filter (fl : list File) :
  map entry (filter p fl) = filter (on_value p) (map entry fl).
Proof.
  induction fl as [|f fl IH]; simpl; auto.
  unfold on_value at 1. simpl. destruct (p f); simpl; now rewrite IH.
Qed.

Lemma dict_get_filter (d : Py.dict File) (k : str) :
  NoDup (map fst d) ->
  Py.dict_get (filter (on_value p) d) k =
  match Py.dict_get d k with
  | Some f => if p f then Some f else None
  | None => None
  end.
Proof.
  induction d as [|[k' f'] d IH]; [reflexivity|].
  intros H. inversion H as [|? ? Hk Hd]; subst.
  specialize (IH Hd).
  cbn [filter Py.dict_get]. unfold on_value at 1. cbn [snd].
  destruct (p f') eqn:Pf; cbn [Py.dict_get];
    destruct (Py.eqb k' k) eqn:E; auto.
  - now rewrite Pf.
  - rewrite Pf, IH. apply eqb_eq in E. subst k'.
    apply dict_get_none in Hk. now rewrite Hk.
Qed.

Lemma dict_del_filter_comm (d : Py.dict File) (k : str) :
  NoDup (map fst d) ->
  Py.dict_del (filter (on_value p) d) k = filter (on_value p) (Py.dict_del d k).
Proof.
  intros H.
  rewrite !dict_del_filter by (auto using filter_keys_nodup).
  apply filter_comm.
Qed.

Lemma picks_filter (keys : list str) (d : Py.dict File) :
  NoDup (map fst d) ->
  picks h keys (filter (on_value p) d) = filter p (picks h keys d).
Proof.
  revert d; induction keys as [|k keys IH]; intros d H; simpl; auto.
  rewrite dict_get_filter by assumption.
  destruct (Py.dict_get d (h k)) as [f|] eqn:E; [|now apply IH].
  simpl. destruct (p f) eqn:Pf.
  - rewrite dict_del_filter_comm by assumption.
    rewrite IH by now apply dict_del_nodup. reflexivity.
  - rewrite <- IH by now apply dict_del_nodup.
    rewrite <- dict_del_filter_comm by assumption.
    rewrite dict_del_absent; auto.
    rewrite dict_get_filter by assumption. now rewrite E, Pf.
Qed.

Lemma unpicked_entries (keys : list str) (fl : list File) :
  map snd (unpicked h keys (map entry fl))
  = filter (fun f => negb (matched h keys f)) fl.
Proof.
  unfold unpicked. induction fl as [|f fl IH]; simpl; auto.
  fold (matched h keys f).
  destruct (matched h keys f); simpl; now rewrite IH.
Qed.

(** Dropping files before ordering is dropping them after. *)
Lemma get_ordered_files_filter (fl : list File) (keys : list str) :
  NoDup (map stem fl) ->
  get_ordered_files h (filter p fl) keys
  = filter p (get_ordered_files h fl keys).
Proof.
  intros H.
  rewrite !get_ordered_files_eq by (auto using nodup_map_filter).
  rewrite filter_app, !unpicked_entries, map_entry_filter.
  rewrite picks_filter by now rewrite map_fst_entry.
  now rewrite filter_comm, sorted_filter.
Qed.

End DropFacts.

Lemma glob_filter (suffix : str) (p : File -> bool) (dir : list File) :
  glob suffix (filter p dir) = filter p (glob suffix dir).
Proof. apply filter_comm. Qed.

(** C1, as the code has it.  A fragment whose text is empty once the white
    space around it is trimmed leaves the output file as it is, in both
    modes, and the whole output is the one the bundler writes when these
    fragments are not in the directory at all.  The same holds for the
    general file of github mode: when its text is empty once trimmed, the
    output is the one written when the file does not exist.  The test
    comes before the two strippers run. *)
Theorem blank_fragments_omitted (h2f f2h : str -> str) (keys : list str) :
  (forall (out : str) (f : File),
      has_content f = false ->
      cursor_step f2h out f = out /\ github_step f2h out f = out)
  /\ (forall dir : list File,
        NoDup (map stem (glob (py ".mdc") dir)) ->
        bundle_cursor_rules h2f f2h keys dir
        = bundle_cursor_rules h2f f2h keys (filter has_content dir))
  /\ (forall (general : option str) (dir : list File),
        NoDup (map stem (glob (py ".instructions.md") dir)) ->
        bundle_github_instructions h2f f2h keys general dir
        = bundle_github_instructions h2f f2h keys general
            (filter has_content dir))
  /\ (forall (raw : str) (dir : list File),
        Py.strip raw = [] ->
        bundle_github_instructions h2f f2h keys (Some raw) dir
        = bundle_github_instructions h2f f2h keys None dir).
Proof.
  split; [|split; [|split]].
  - intros out f H. split.
    + now apply cursor_step_blank.
    + now apply github_step_blank.
  - intros dir H. unfold bundle_cursor_rules.
    rewrite glob_filter.
    rewrite !(filter_comm _ _ has_content).
    rewrite (get_ordered_files_filter h2f has_content)
      by now apply nodup_map_filter.
    rewrite <- filter_app.
    symmetry. apply fold_step_filter.
    intros out f. apply cursor_step_blank.
  - intros general dir H. unfold bundle_github_instructions.
    rewrite glob_filter.
    rewrite (get_ordered_files_filter h2f has_content) by assumption.
    symmetry. apply fold_step_filter.
    intros out f. apply github_step_blank.
  - intros raw dir H. unfold bundle_github_instructions.
    now rewrite H.
Qed.

Lemma blank_fragments_omitted_witness :
  cursor_step Constants.filename_to_header (py "Hello\n\n") Examples.blank_mdc
  = py "Hello\n\n"
  /\ bundle_cursor_rules Constants.header_to_filename
       Constants.filename_to_header [py "A Topic"]
       [Examples.blank_mdc; Examples.general_mdc; Examples.a_topic_mdc]
     = bundle_cursor_rules Constants.header_to_filename
         Constants.filename_to_header [py "A Topic"]
         (filter has_content
            [Examples.blank_mdc; Examples.general_mdc; Examples.a_topic_mdc])
  /\ bundle_github_instructions Constants.header_to_filename
       Constants.filename_to_header [py "Python"]
       (Some Examples.copilot_general)
       [Examples.blank_instructions; Examples.python_instructions]
     = bundle_github_instructions Constants.header_to_filename
         Constants.filename_to_header [py "Python"]
         (Some Examples.copilot_general)
         (filter has_content
            [Examples.blank_instructions; Examples.python_instructions])
  /\ bundle_github_instructions Constants.header_to_filename
       Constants.filename_to_header [py "Python"]
       (Some Examples.blank_general) [Examples.python_instructions]
     = bundle_github_instructions Constants.header_to_filename
         Constants.filename_to_header [py "Python"]
         None [Examples.python_instructions].
Proof.
  pose proof (blank_fragments_omitted Constants.header_to_filename
                Constants.filename_to_header [py "A Topic"])
    as (H1 & H2 & _ & _).
  pose proof (blank_fragments_omitted Constants.header_to_filename
                Constants.filename_to_header [py "Python"])
    as (_ & _ & H3 & H4).
  split; [|split; [|split]].
  - apply H1. by_computation.
  - apply H2. nodup_concrete.
  - apply H3. nodup_concrete.
  - apply H4. by_computation.
Defined.

(** C1 as stated fails: a fragment that holds a header line only, or a
    metadata block only, is empty after the two strippers, and its title
    and two blank lines are written all the same. *)
Lemma stripped_empty_fragment_written :
  strip_header
    (strip_yaml_frontmatter (Py.strip (text Examples.title_only_mdc))) = []
  /\ bundle_cursor_rules Constants.header_to_filename
       Constants.filename_to_header [py "A Topic"] [Examples.title_only_mdc]
     = py "## A Topic\n\n\n\n"
  /\ strip_header
       (strip_yaml_frontmatter
          (Py.strip (text Examples.frontmatter_only_instructions))) = []
  /\ bundle_github_instructions Constants.header_to_filename
       Constants.filename_to_header [py "Python"] None
       [Examples.frontmatter_only_instructions]
     = py "## Python\n\n\n\n".
Proof.
  repeat split.
Qed.

(** ** The worked example *)

Lemma perm3 (A : Type) (a b c : A) (l : list A) :
  Permutation l [a; b; c] ->
  l = [a; b; c] \/ l = [a; c; b] \/ l = [b; a; c]
  \/ l = [b; c; a] \/ l = [c; a; b] \/ l = [c; b; a].
Proof.
  intros H. destruct l as [|x l].
  - apply Permutation_nil in H. discriminate.
  - assert (Hx : In x [a; b; c])
      by (eapply Permutation_in; [exact H | now left]).
    destruct Hx as [<-|[<-|[<-|[]]]].
    + apply Permutation_cons_inv in H. symmetry in H.
      apply Permutation_length_2_inv in H. destruct H as [->| ->]; auto.
    + assert (H' : Permutation (b :: l) (b :: [a; c]))
        by (rewrite H; apply perm_swap).
      apply Permutation_cons_inv in H'. symmetry in H'.
      apply Permutation_length_2_inv in H'.
      destruct H' as [->| ->]; auto 6.
    + assert (H' : Permutation (c :: l) (c :: [a; b])).
      { rewrite H. rewrite (perm_swap c b). apply perm_swap. }
      apply Permutation_cons_inv in H'. symmetry in H'.
      apply Permutation_length_2_inv in H'.
      destruct H' as [->| ->]; auto 7.
Qed.

(** The bundler asks [constants.py] for the filename form of the section
    names and for the titles of the fragments that are not general, and
    for nothing else. *)
Lemma take_sections_ext (h h' : str -> str) (keys : list str)
    (d : Py.dict File) (ord : list File) :
  map h keys = map h' keys ->
  take_sections h keys d ord = take_sections h' keys d ord.
Proof.
  revert d ord; induction keys as [|k keys IH]; intros d ord; simpl; auto.
  intros [= Hk Hks]. rewrite Hk.
  destruct (Py.dict_get d (h' k)); now apply IH.
Qed.

Lemma get_ordered_files_ext (h h' : str -> str) (fl : list File)
    (keys : list str) :
  map h keys = map h' keys ->
  get_ordered_files h fl keys = get_ordered_files h' fl keys.
Proof.
  intros H. unfold get_ordered_files. now rewrite (take_sections_ext h h').
Qed.

Lemma cursor_step_ext (t t' : str -> str) (out : str) (f : File) :
  is_general f = true \/ t (stem f) = t' (stem f) ->
  cursor_step t out f = cursor_step t' out f.
Proof.
  intros H. unfold cursor_step.
  destruct (Py.strip (text f)); auto.
  destruct H as [-> | ->]; reflexivity.
Qed.

Lemma fold_cursor_step_ext (t t' : str -> str) (l : list File) (out : str) :
  Forall (fun f => is_general f = true \/ t (stem f) = t' (stem f)) l ->
  fold_left (cursor_step t) l out = fold_left (cursor_step t') l out.
Proof.
  intros H; revert out; induction H as [|f l Hf _ IH]; intros out; simpl;
    auto.
  now rewrite IH, (cursor_step_ext t t' out f Hf).
Qed.

(** C8.  The three fragments of the example, listed by the directory in
    any order, with the canonical sequence [A Topic], give exactly the
    output of the example, whenever [constants.py] maps the section name
    [A Topic] to [a-topic] and the identifiers [a-topic] and [b-topic] to
    the titles [A Topic] and [B Topic]. *)
Theorem bundle_cursor_example (h2f f2h : str -> str) (dir : list File) :
  h2f (py "A Topic") = py "a-topic" ->
  f2h (py "a-topic") = py "A Topic" ->
  f2h (py "b-topic") = py "B Topic" ->
  Permutation dir
    [Examples.general_mdc; Examples.b_topic_mdc; Examples.a_topic_mdc] ->
  bundle_cursor_rules h2f f2h [py "A Topic"] dir
  = py "Hello\n\n## A Topic\n\nBody A\n\n## B Topic\n\nBody B\n\n".
Proof.
  intros Hh Ha Hb H.
  assert (E : bundle_cursor_rules h2f f2h [py "A Topic"] dir
              = bundle_cursor_rules Constants.header_to_filename
                  Constants.filename_to_header [py "A Topic"] dir).
  { unfold bundle_cursor_rules.
    rewrite (get_ordered_files_ext h2f Constants.header_to_filename)
      by (cbn [map]; now rewrite Hh).
    apply fold_cursor_step_ext.
    vm_compute in Ha, Hb.
    apply perm3 in H.
    destruct H as [->|[->|[->|[->|[->| ->]]]]];
      vm_compute;
      repeat (apply Forall_cons;
              [first [left; reflexivity | right; assumption]|]);
      apply Forall_nil. }
  rewrite E. apply perm3 in H.
  destruct H as [->|[->|[->|[->|[->| ->]]]]]; by_computation.
Qed.

Lemma bundle_cursor_example_witness :
  bundle_cursor_rules Constants.header_to_filename
    Constants.filename_to_header [py "A Topic"]
    [Examples.general_mdc; Examples.b_topic_mdc; Examples.a_topic_mdc]
  = py "Hello\n\n## A Topic\n\nBody A\n\n## B Topic\n\nBody B\n\n".
Proof.
  apply bundle_cursor_example;
    [by_computation | by_computation | by_computation
    | apply Permutation_refl].
Defined.

(** * Further properties *)

(** ** The dictionary of the ordering function, without assumptions *)

Section FileDict.

Variable V : Type.
Implicit Types (d : Py.dict V) (k : str) (v : V).

Lemma dict_get_set d k v k' :
  Py.dict_get (Py.dict_set d k v) k'
  = if Py.eqb k k' then Some v else Py.dict_get d k'.
Proof.
  induction d as [|[k0 v0] d IH]; simpl.
  - reflexivity.
  - destruct (Py.eqb k0 k) eqn:E; simpl.
    + apply eqb_eq in E. subst k0.
      now destruct (Py.eqb k k').
    + destruct (Py.eqb k0 k') eqn:E'.
      * apply eqb_eq in E'. subst k'.
        apply eqb_neq in E.
        destruct (Py.eqb k k0) eqn:E2; auto.
        apply eqb_eq in E2. congruence.
      * exact IH.
Qed.

Lemma dict_set_keys d k v :
  map fst (Py.dict_set d k v)
  = match Py.dict_get d k with
    | Some _ => map fst d
    | None => map fst d ++ [k]
    end.
Proof.
  induction d as [|[k0 v0] d IH]; simpl; auto.
  destruct (Py.eqb k0 k) eqn:E; simpl.
  - apply eqb_eq in E. now subst.
  - rewrite IH. now destruct (Py.dict_get d k).
Qed.

Lemma dict_set_nodup d k v :
  NoDup (map fst d) -> NoDup (map fst (Py.dict_set d k v)).
Proof.
  intros H. rewrite dict_set_keys.
  destruct (Py.dict_get d k) eqn:E; auto.
  apply dict_get_none in E.
  apply NoDup_app; auto.
  - repeat constructor. simpl. tauto.
  - intros x Hx [<-|[]]. contradiction.
Qed.

Lemma dict_del_keys d k x :
  In x (map fst (Py.dict_del d k)) -> In x (map fst d).
Proof.
  induction d as [|[k0 v0] d IH]; simpl; auto.
  destruct (Py.eqb k0 k); simpl; tauto.
Qed.

Lemma dict_in_get d k :
  In k (map fst d) <-> exists v, Py.dict_get d k = Some v.
Proof.
  split.
  - intros H. destruct (Py.dict_get d k) as [v|] eqn:E; [now exists v|].
    apply dict_get_none in E. contradiction.
  - intros (v & E) . destruct (in_dec (list_eq_dec N.eq_dec) k (map fst d))
      as [Hin|Hn]; auto.
    apply dict_get_none in Hn. congruence.
Qed.

End FileDict.

Lemma find_app (A : Type) (p : A -> bool) (l1 l2 : list A) :
  find p (l1 ++ l2)
  = match find p l1 with Some x => Some x | None => find p l2 end.
Proof.
  induction l1 as [|x l1 IH]; simpl; auto. now destruct (p x).
Qed.

(** The dictionary comprehension gives every identifier the last file of
    the listing that bears it. *)
Lemma file_dict_get (fl : list File) (d : Py.dict File) (k : str) :
  Py.dict_get (fold_left (fun d f => Py.dict_set d (stem f) f) fl d) k
  = match find (fun f => Py.eqb (stem f) k) (rev fl) with
    | Some f => Some f
    | None => Py.dict_get d k
    end.
Proof.
  revert d; induction fl as [|f fl IH]; intros d; simpl; auto.
  rewrite IH, find_app, dict_get_set. simpl.
  destruct (find (fun f0 => Py.eqb (stem f0) k) (rev fl)); auto.
  now destruct (Py.eqb (stem f) k).
Qed.

Lemma file_dict_nodup (fl : list File) (d : Py.dict File) :
  NoDup (map fst d) ->
  NoDup (map fst (fold_left (fun d f => Py.dict_set d (stem f) f) fl d)).
Proof.
  revert d; induction fl as [|f fl IH]; intros d H; simpl; auto.
  apply IH. now apply dict_set_nodup.
Qed.

(** The last element of a list that passes a test. *)
Lemma find_rev_last (A : Type) (p : A -> bool) (l : list A) (x : A) :
  find p (rev l) = Some x <->
  exists l1 l2, l = l1 ++ x :: l2 /\ p x = true
                /\ Forall (fun y => p y = false) l2.
Proof.
  induction l as [|a l IH] using rev_ind.
  - simpl. split; [discriminate|].
    intros (l1 & l2 & E & _). now destruct l1.
  - rewrite rev_app_distr. simpl. destruct (p a) eqn:Pa.
    + split.
      * intros [= ->]. now exists l, [].
      * intros (l1 & l2 & E & Px & Hl2).
        destruct l2 as [|b l2] using rev_ind.
        -- apply app_inj_tail in E. destruct E as [_ ->]. reflexivity.
        -- clear IHl2. rewrite app_comm_cons, app_assoc in E.
           apply app_inj_tail in E. destruct E as [_ ->].
           apply Forall_app in Hl2. destruct Hl2 as [_ Hb].
           inversion Hb; congruence.
    + rewrite IH. split.
      * intros (l1 & l2 & -> & Px & Hl2).
        exists l1, (l2 ++ [a]). rewrite <- app_assoc. split; auto.
        split; auto. apply Forall_app. auto.
      * intros (l1 & l2 & E & Px & Hl2).
        destruct l2 as [|b l2] using rev_ind.
        -- apply app_inj_tail in E. destruct E as [_ ->]. congruence.
        -- clear IHl2. rewrite app_comm_cons, app_assoc in E.
           apply app_inj_tail in E. destruct E as [-> ->].
           apply Forall_app in Hl2. destruct Hl2 as [Hl2 _].
           now exists l1, l2.
Qed.

Section OrderingGeneral.

Variable h : str -> str.
Variable fl : list File.
Variable keys : list str.

Let d := fold_left (fun d f => Py.dict_set d (stem f) f) fl [].

Lemma file_dict_keys_nodup : NoDup (map fst d).
Proof. apply file_dict_nodup. constructor. Qed.

(** [get_ordered_files] on any listing. *)
Lemma get_ordered_files_eq_gen :
  get_ordered_files h fl keys
  = picks h keys d ++ Py.sorted name (map snd (unpicked h keys d)).
Proof.
  unfold get_ordered_files. fold d.
  rewrite take_sections_eq by apply file_dict_keys_nodup.
  reflexivity.
Qed.

Lemma ordered_perm_gen :
  Permutation (get_ordered_files h fl keys) (map snd d).
Proof.
  rewrite get_ordered_files_eq_gen, sorted_perm.
  apply picks_unpicked_perm, file_dict_keys_nodup.
Qed.

Lemma file_dict_in (k : str) (f : File) :
  In (k, f) d <->
  exists l1 l2, fl = l1 ++ f :: l2 /\ k = stem f
                /\ ~ In (stem f) (map stem l2).
Proof.
  rewrite <- dict_get_in by apply file_dict_keys_nodup.
  unfold d. rewrite file_dict_get. simpl.
  assert (E : match find (fun f0 => Py.eqb (stem f0) k) (rev fl) with
              | Some f0 => Some f0
              | None => None
              end = find (fun f0 => Py.eqb (stem f0) k) (rev fl))
    by now destruct (find _ _).
  rewrite E, find_rev_last. split.
  - intros (l1 & l2 & -> & Hk & Hl2). apply eqb_eq in Hk. subst k.
    exists l1, l2. repeat split; auto.
    intros Hin. apply in_map_iff in Hin. destruct Hin as (g & Hg & Hin).
    rewrite Forall_forall in Hl2. apply Hl2 in Hin.
    apply eqb_neq in Hin. congruence.
  - intros (l1 & l2 & -> & -> & Hl2). exists l1, l2. repeat split.
    + apply eqb_refl.
    + apply Forall_forall. intros g Hg. apply eqb_neq.
      intros E'. apply Hl2. rewrite <- E'. now apply in_map.
Qed.

Lemma file_dict_stems : map stem (map snd d) = map fst d.
Proof.
  rewrite map_map. apply map_ext_in. intros [k f] Hin.
  apply file_dict_in in Hin. destruct Hin as (_ & _ & _ & -> & _).
  reflexivity.
Qed.

Lemma file_dict_keys (k : str) : In k (map fst d) -> In k (map stem fl).
Proof.
  intros H. apply in_map_iff in H. destruct H as ([k' f] & <- & Hin).
  apply file_dict_in in Hin. destruct Hin as (l1 & l2 & -> & -> & _).
  simpl. rewrite map_app. apply in_or_app. right. now left.
Qed.

End OrderingGeneral.

(** X1.  On any listing, also one where two files share an identifier,
    the ordering function returns files with distinct identifiers, and it
    returns a file exactly when no later file of the listing bears the
    same identifier: of the files that share one, the last is kept and the
    others are dropped. *)
Theorem get_ordered_files_last_wins
    (h : str -> str) (fl : list File) (keys : list str) :
  NoDup (map stem (get_ordered_files h fl keys))
  /\ forall f,
       In f (get_ordered_files h fl keys) <->
       exists l1 l2, fl = l1 ++ f :: l2 /\ ~ In (stem f) (map stem l2).
Proof.
  split.
  - eapply Permutation_NoDup.
    + symmetry. apply Permutation_map, ordered_perm_gen.
    + rewrite file_dict_stems. apply file_dict_keys_nodup.
  - intros f. split.
    + intros Hin.
      eapply Permutation_in in Hin; [|apply ordered_perm_gen].
      apply in_map_iff in Hin. destruct Hin as ([k g] & Hg & Hin).
      simpl in Hg. subst g. apply file_dict_in in Hin.
      destruct Hin as (l1 & l2 & E & _ & Hl2). now exists l1, l2.
    + intros (l1 & l2 & E & Hl2).
      eapply Permutation_in; [symmetry; apply ordered_perm_gen|].
      apply in_map_iff. exists (stem f, f). split; auto.
      apply file_dict_in. now exists l1, l2.
Qed.

(** ** Section names that name no file *)

Section SkipKeys.

Variable h : str -> str.
Variable q : str -> bool.

Lemma picks_skip (keys : list str) (d : Py.dict File) :
  (forall k, In k keys -> q k = false -> ~ In (h k) (map fst d)) ->
  picks h (filter q keys) d = picks h keys d.
Proof.
  revert d; induction keys as [|k keys IH]; intros d H; simpl; auto.
  assert (Hd : forall d', (forall x, In x (map fst d') -> In x (map fst d)) ->
               picks h (filter q keys) d' = picks h keys d').
  { intros d' Hsub. apply IH. intros k' Hk' Hq Hin.
    apply (H k'); simpl; auto. }
  destruct (q k) eqn:Q; simpl.
  - destruct (Py.dict_get d (h k)); [f_equal|]; apply Hd; auto.
    intros x. apply dict_del_keys.
  - assert (E : Py.dict_get d (h k) = None).
    { apply dict_get_none. apply H; simpl; auto. }
    rewrite E. apply Hd; auto.
Qed.

Lemma unpicked_skip (keys : list str) (d : Py.dict File) :
  (forall k, In k keys -> q k = false -> ~ In (h k) (map fst d)) ->
  unpicked h (filter q keys) d = unpicked h keys d.
Proof.
  intros H. unfold unpicked. apply filter_ext_in. intros [s f] Hin.
  simpl. f_equal.
  induction keys as [|k keys IH]; simpl; auto.
  assert (IH' : existsb (fun k0 => names h k0 s) (filter q keys)
                = existsb (fun k0 => names h k0 s) keys).
  { apply IH. intros k' Hk'. apply H. now right. }
  destruct (q k) eqn:Q; simpl; rewrite IH'; auto.
  destruct (names h k s) eqn:N; auto.
  exfalso. apply (H k); simpl; auto.
  apply eqb_eq in N. rewrite N. now apply (in_map fst) in Hin.
Qed.

Lemma get_ordered_files_skip (fl : list File) (keys : list str) :
  (forall k, In k keys -> q k = false -> ~ In (h k) (map stem fl)) ->
  get_ordered_files h fl (filter q keys) = get_ordered_files h fl keys.
Proof.
  intros H. rewrite !get_ordered_files_eq_gen.
  assert (H' : forall k, In k keys -> q k = false ->
               ~ In (h k) (map fst
                   (fold_left (fun d f => Py.dict_set d (stem f) f) fl []))).
  { intros k Hk Q Hin. apply (H k Hk Q). now apply file_dict_keys in Hin. }
  now rewrite picks_skip, unpicked_skip.
Qed.

End SkipKeys.

(** X2.  A section name whose filename form is the identifier of no file
    of the listing is passed over without a trace: the ordering function
    returns what it returns for the canonical sequence without these
    names. *)
Theorem get_ordered_files_unmatched_names
    (h : str -> str) (fl : list File) (keys : list str) :
  get_ordered_files h fl
    (filter (fun k => existsb (fun f => Py.eqb (h k) (stem f)) fl) keys)
  = get_ordered_files h fl keys.
Proof.
  apply get_ordered_files_skip. intros k _ Hq Hin.
  apply in_map_iff in Hin. destruct Hin as (f & Hf & Hin).
  assert (E : existsb (fun f => Py.eqb (h k) (stem f)) fl = true).
  { apply existsb_exists. exists f. split; auto.
    rewrite Hf. apply eqb_refl. }
  congruence.
Qed.

(** ** The order of the directory listing *)

Lemma perm_filter (A : Type) (p : A -> bool) (l l' : list A) :
  Permutation l l' -> Permutation (filter p l) (filter p l').
Proof.
  induction 1 as [|x l l' _ IH|x y l|l l' l'' _ IH1 _ IH2]; simpl.
  - constructor.
  - destruct (p x); auto.
  - destruct (p x), (p y); auto. apply perm_swap.
  - now transitivity (filter p l').
Qed.

(** Two sorted lists with the same elements are equal when no two
    elements share a key. *)
Lemma sorted_unique (A : Type) (key : A -> str) (l l' : list A) :
  (forall a b, In a l -> In b l -> key a = key b -> a = b) ->
  StronglySorted (key_le key) l -> StronglySorted (key_le key) l' ->
  Permutation l l' -> l = l'.
Proof.
  intros Hinj Hs. revert l' Hinj.
  induction Hs as [|x l Hs IH Hx]; intros l' Hinj Hs' Hp.
  - apply Permutation_nil in Hp. now subst.
  - destruct Hs' as [|y l' Hs' Hy].
    + symmetry in Hp. apply Permutation_nil in Hp. discriminate.
    + assert (E : x = y).
      { assert (Hxin : In x (y :: l'))
          by (eapply Permutation_in; [exact Hp | now left]).
        assert (Hyin : In y (x :: l))
          by (eapply Permutation_in; [symmetry; exact Hp | now left]).
        destruct Hxin as [->|Hxin]; auto.
        destruct Hyin as [->|Hyin]; auto.
        rewrite Forall_forall in Hx, Hy.
        apply Hinj; simpl; auto.
        apply ltb_total; [apply (Hy x Hxin) | apply (Hx y Hyin)]. }
      subst y. f_equal. apply IH; auto.
      * intros a b Ha Hb. apply Hinj; now right.
      * now apply Permutation_cons_inv in Hp.
Qed.

Lemma sorted_perm_eq (A : Type) (key : A -> str) (l l' : list A) :
  (forall a b, In a l -> In b l -> key a = key b -> a = b) ->
  Permutation l l' -> Py.sorted key l = Py.sorted key l'.
Proof.
  intros Hinj Hp. apply (sorted_unique A key).
  - intros a b Ha Hb E.
    apply Hinj; auto;
      (eapply Permutation_in; [apply (sorted_perm _ key) | assumption]).
  - apply sorted_sorted.
  - apply sorted_sorted.
  - rewrite !sorted_perm. exact Hp.
Qed.

Section PermFacts.

Variable h : str -> str.

Lemma dict_get_perm_eq (d d' : Py.dict File) (k : str) :
  NoDup (map fst d) -> Permutation d d' ->
  Py.dict_get d k = Py.dict_get d' k.
Proof.
  intros Hnd Hp.
  assert (Hnd' : NoDup (map fst d'))
    by (eapply Permutation_NoDup; [apply Permutation_map, Hp | exact Hnd]).
  destruct (Py.dict_get d k) as [f|] eqn:E.
  - symmetry. apply dict_get_in; auto.
    eapply Permutation_in; [exact Hp|]. now apply dict_get_in in E.
  - symmetry. apply dict_get_none. apply dict_get_none in E.
    intros Hin. apply E.
    eapply Permutation_in; [symmetry; apply Permutation_map, Hp | exact Hin].
Qed.

Lemma picks_perm (keys : list str) (d d' : Py.dict File) :
  NoDup (map fst d) -> Permutation d d' ->
  picks h keys d = picks h keys d'.
Proof.
  revert d d'; induction keys as [|k keys IH]; intros d d' Hnd Hp; simpl;
    auto.
  assert (Hnd' : NoDup (map fst d'))
    by (eapply Permutation_NoDup; [apply Permutation_map, Hp | exact Hnd]).
  rewrite <- (dict_get_perm_eq d d' (h k) Hnd Hp).
  destruct (Py.dict_get d (h k)); [f_equal|]; apply IH; auto.
  - now apply dict_del_nodup.
  - rewrite !dict_del_filter by assumption. now apply perm_filter.
Qed.

Lemma stems_names_distinct (fl : list File) (a b : File) :
  NoDup (map stem fl) -> In a fl -> In b fl -> name a = name b -> a = b.
Proof.
  intros Hnd Ha Hb E. apply (nodup_key_eq _ stem fl); auto.
  unfold stem. now rewrite E.
Qed.

Lemma get_ordered_files_perm (fl fl' : list File) (keys : list str) :
  NoDup (map stem fl) -> Permutation fl fl' ->
  get_ordered_files h fl keys = get_ordered_files h fl' keys.
Proof.
  intros Hnd Hp.
  assert (Hnd' : NoDup (map stem fl'))
    by (eapply Permutation_NoDup; [apply Permutation_map, Hp | exact Hnd]).
  rewrite !get_ordered_files_eq by assumption.
  rewrite !unpicked_entries. f_equal.
  - apply picks_perm.
    + now rewrite map_fst_entry.
    + now apply Permutation_map.
  - apply sorted_perm_eq.
    + intros a b Ha Hb. apply filter_In in Ha, Hb.
      apply (stems_names_distinct fl); tauto.
    + now apply perm_filter.
Qed.

End PermFacts.

(** X3.  With distinct identifiers the ordering function does not depend
    on the order in which the directory lists the files. *)
Theorem get_ordered_files_listing_order
    (h : str -> str) (fl fl' : list File) (keys : list str) :
  NoDup (map stem fl) -> Permutation fl fl' ->
  get_ordered_files h fl keys = get_ordered_files h fl' keys.
Proof.
  intros Hnd Hp.
  assert (Hnd' : NoDup (map stem fl'))
    by (eapply Permutation_NoDup; [apply Permutation_map, Hp | exact Hnd]).
  rewrite !get_ordered_files_eq by assumption.
  rewrite !unpicked_entries. f_equal.
  - apply picks_perm.
    + now rewrite map_fst_entry.
    + now apply Permutation_map.
  - apply sorted_perm_eq.
    + intros a b Ha Hb. apply filter_In in Ha, Hb.
      apply (stems_names_distinct fl); tauto.
    + now apply perm_filter.
Qed.

Lemma get_ordered_files_listing_order_witness :
  get_ordered_files Constants.header_to_filename Examples.rules
    [py "React"; py "Python"]
  = get_ordered_files Constants.header_to_filename (rev Examples.rules)
      [py "React"; py "Python"].
Proof.
  apply get_ordered_files_listing_order.
  - nodup_concrete.
  - apply Permutation_rev.
Defined.

(** Files that all bear one identifier, in a listing with distinct
    identifiers, are one file at most. *)
Lemma filter_one_stem (p : File -> bool) (s : str) (l l' : list File) :
  (forall f, p f = true -> stem f = s) ->
  NoDup (map stem l) -> Permutation l l' ->
  filter p l = filter p l'.
Proof.
  intros Hp Hnd Hperm.
  assert (Hf : Permutation (filter p l) (filter p l'))
    by now apply perm_filter.
  assert (Hn : NoDup (map stem (filter p l)))
    by now apply nodup_map_filter.
  destruct (filter p l) as [|a [|b m]] eqn:E.
  - apply Permutation_nil in Hf. now rewrite Hf.
  - apply Permutation_length_1_inv in Hf. now rewrite Hf.
  - exfalso.
    assert (Ha : p a = true).
    { assert (Hin : In a (filter p l)) by (rewrite E; now left).
      now apply filter_In in Hin. }
    assert (Hb : p b = true).
    { assert (Hin : In b (filter p l)) by (rewrite E; right; now left).
      now apply filter_In in Hin. }
    simpl in Hn. inversion Hn as [|? ? Hnot _]; subst.
    apply Hnot. left. now rewrite (Hp a Ha), (Hp b Hb).
Qed.

(** X4.  With distinct identifiers neither bundler depends on the order
    in which the directory lists the files: the output is the same for
    every listing of the same files. *)
Theorem bundle_listing_order
    (h2f f2h : str -> str) (keys : list str) (dir dir' : list File) :
  Permutation dir dir' ->
  (NoDup (map stem (glob (py ".mdc") dir)) ->
   bundle_cursor_rules h2f f2h keys dir
   = bundle_cursor_rules h2f f2h keys dir')
  /\ (forall general,
        NoDup (map stem (glob (py ".instructions.md") dir)) ->
        bundle_github_instructions h2f f2h keys general dir
        = bundle_github_instructions h2f f2h keys general dir').
Proof.
  intros Hp. split.
  - intros Hnd. unfold bundle_cursor_rules.
    assert (Hg : Permutation (glob (py ".mdc") dir) (glob (py ".mdc") dir'))
      by now apply perm_filter.
    rewrite (filter_one_stem is_general (py "general")
               (glob (py ".mdc") dir) (glob (py ".mdc") dir')); auto.
    + rewrite (get_ordered_files_perm h2f
                 (filter (fun f => negb (is_general f)) (glob (py ".mdc") dir))
                 (filter (fun f => negb (is_general f))
                    (glob (py ".mdc") dir'))); auto.
      * now apply nodup_map_filter.
      * now apply perm_filter.
    + intros f Hf. now apply eqb_eq in Hf.
  - intros general Hnd. unfold bundle_github_instructions.
    rewrite (get_ordered_files_perm h2f
               (glob (py ".instructions.md") dir)
               (glob (py ".instructions.md") dir')); auto.
    now apply perm_filter.
Qed.

Lemma bundle_listing_order_witness :
  bundle_cursor_rules Constants.header_to_filename
    Constants.filename_to_header [py "React"]
    (Examples.general_mdc :: Examples.rules)
  = bundle_cursor_rules Constants.header_to_filename
      Constants.filename_to_header [py "React"]
      (rev (Examples.general_mdc :: Examples.rules))
  /\ bundle_github_instructions Constants.header_to_filename
       Constants.filename_to_header [py "Python"]
       (Some Examples.copilot_general)
       [Examples.blank_instructions; Examples.python_instructions]
     = bundle_github_instructions Constants.header_to_filename
         Constants.filename_to_header [py "Python"]
         (Some Examples.copilot_general)
         (rev [Examples.blank_instructions; Examples.python_instructions]).
Proof.
  split.
  - apply (bundle_listing_order Constants.header_to_filename
             Constants.filename_to_header [py "React"]
             (Examples.general_mdc :: Examples.rules)
             (rev (Examples.general_mdc :: Examples.rules))
             (Permutation_rev _)).
    nodup_concrete.
  - apply (bundle_listing_order Constants.header_to_filename
             Constants.filename_to_header [py "Python"]
             [Examples.blank_instructions; Examples.python_instructions]
             (rev [Examples.blank_instructions; Examples.python_instructions])
             (Permutation_rev _)).
    nodup_concrete.
Defined.

(** ** Identifiers in github mode *)

(** The stem of a name in [.instructions.md] still ends in
    [.instructions]. *)
Lemma stem_of_instructions (s : str) :
  stem_of (s ++ py ".instructions.md") = s ++ py ".instructions".
Proof.
  unfold stem_of.
  rewrite (rfind_app _ s (py ".instructions.md") 13) by reflexivity.
  rewrite length_app.
  replace ((0 <? length s + 13)
           && (length s + 13 <? length s + length (py ".instructions.md") - 1))
    with true.
  - rewrite firstn_app.
    replace (length s + 13 - length s) with 13 by lia.
    rewrite firstn_all2 by lia. reflexivity.
  - symmetry. apply andb_true_iff. split; apply Nat.ltb_lt; simpl; lia.
Qed.

Lemma glob_instructions_stem (dir : list File) (f : File) :
  In f (glob (py ".instructions.md") dir) ->
  exists s, name f = s ++ py ".instructions.md"
            /\ stem f = s ++ py ".instructions".
Proof.
  intros H. apply filter_In in H. destruct H as [_ H].
  apply endswith_app in H. destruct H as (s & Hs). exists s.
  split; auto. unfold stem. rewrite Hs. apply stem_of_instructions.
Qed.

(** X5.  In github mode the identifiers the ordering function looks up
    are the stems of names in [.instructions.md], and these end in
    [.instructions].  When no section name has a filename form with that
    ending, no file matches, and the output is the one for an empty
    canonical sequence: the instruction files come sorted by name. *)
Theorem bundle_github_canonical_unused
    (h2f f2h : str -> str) (keys : list str)
    (general : option str) (dir : list File) :
  (forall k, In k keys ->
     Py.endswith (h2f k) (py ".instructions") = false) ->
  bundle_github_instructions h2f f2h keys general dir
  = bundle_github_instructions h2f f2h [] general dir.
Proof.
  intros H. unfold bundle_github_instructions.
  rewrite <- (get_ordered_files_skip h2f (fun _ => false)
                (glob (py ".instructions.md") dir) keys).
  - replace (filter (fun _ : str => false) keys) with (@nil str);
      [reflexivity|].
    clear H. induction keys; simpl; auto.
  - intros k Hk _ Hin. apply in_map_iff in Hin.
    destruct Hin as (f & Hf & Hin).
    apply glob_instructions_stem in Hin. destruct Hin as (s & _ & Hs).
    specialize (H k Hk).
    assert (E : Py.endswith (h2f k) (py ".instructions") = true).
    { apply endswith_app. exists s. now rewrite <- Hf. }
    congruence.
Qed.

Lemma bundle_github_canonical_unused_witness :
  bundle_github_instructions Constants.header_to_filename
    Constants.filename_to_header [py "Python"; py "Blank"]
    None [Examples.python_instructions; Examples.blank_instructions]
  = bundle_github_instructions Constants.header_to_filename
      Constants.filename_to_header []
      None [Examples.python_instructions; Examples.blank_instructions].
Proof.
  apply bundle_github_canonical_unused.
  intros k [<-|[<-|[]]]; by_computation.
Defined.

(** ** Distinct names, distinct identifiers *)

Lemma glob_mdc_stem (dir : list File) (f : File) :
  In f (glob (py ".mdc") dir) ->
  exists s, name f = s ++ py ".mdc"
            /\ stem f = match s with [] => py ".mdc" | _ :: _ => s end.
Proof.
  intros H. apply filter_In in H. destruct H as [_ H].
  apply endswith_app in H. destruct H as (s & Hs). exists s.
  split; auto. unfold stem. rewrite Hs. apply stem_of_mdc.
Qed.

Lemma nodup_map_inj (A : Type) (key key' : A -> str) (l : list A) :
  (forall a b, In a l -> In b l -> key' a = key' b -> key a = key b) ->
  NoDup (map key l) -> NoDup (map key' l).
Proof.
  induction l as [|x l IH]; simpl; intros Hinj H; [constructor|].
  inversion H as [|? ? Hx Hl]; subst. constructor.
  - intros Hin. apply Hx. apply in_map_iff in Hin.
    destruct Hin as (y & Hy & Hin).
    rewrite (Hinj x y); auto. now apply in_map.
  - apply IH; auto.
Qed.

(** X6.  The names of a directory are distinct.  In github mode this
    makes the identifiers distinct, so the ordering function drops no
    instruction file.  In cursor mode it does so unless the directory
    holds a file named [.mdc], whose identifier is [.mdc] like that of
    [.mdc.mdc]. *)
Theorem glob_stems_distinct (dir : list File) :
  NoDup (map name dir) ->
  NoDup (map stem (glob (py ".instructions.md") dir))
  /\ (~ In (py ".mdc") (map name dir) ->
      NoDup (map stem (glob (py ".mdc") dir))).
Proof.
  intros Hnd. split.
  - apply (nodup_map_inj _ name stem).
    + intros a b Ha Hb E.
      apply glob_instructions_stem in Ha, Hb.
      destruct Ha as (s & Na & Sa), Hb as (s' & Nb & Sb).
      rewrite Sa, Sb in E. apply app_inv_tail in E.
      rewrite Na, Nb. now rewrite E.
    + now apply nodup_map_filter.
  - intros Hno. apply (nodup_map_inj _ name stem).
    + intros a b Ha Hb E.
      assert (Hne : forall f, In f (glob (py ".mdc") dir) ->
                    exists s, name f = s ++ py ".mdc" /\ stem f = s).
      { intros f Hf. pose proof Hf as Hf'.
        apply glob_mdc_stem in Hf. destruct Hf as (s & Nf & Sf).
        exists s. split; auto. destruct s; auto.
        exfalso. apply Hno. apply filter_In in Hf'.
        change ([] ++ py ".mdc") with (py ".mdc") in Nf.
        rewrite <- Nf. now apply in_map. }
      destruct (Hne a Ha) as (s & Na & Sa).
      destruct (Hne b Hb) as (s' & Nb & Sb).
      rewrite Na, Nb. congruence.
    + now apply nodup_map_filter.
Qed.

Lemma glob_stems_distinct_witness :
  NoDup (map stem (glob (py ".instructions.md")
                     [Examples.python_instructions; Examples.python_mdc;
                      Examples.blank_instructions]))
  /\ NoDup (map stem (glob (py ".mdc") Examples.rules)).
Proof.
  split.
  - apply (glob_stems_distinct
             [Examples.python_instructions; Examples.python_mdc;
              Examples.blank_instructions]).
    nodup_concrete.
  - apply (glob_stems_distinct Examples.rules).
    + nodup_concrete.
    + vm_compute. intuition discriminate.
Defined.

(** ** Lines, once more *)

Lemma splitlines_nobreak (s : str) : Forall nobreak (Py.splitlines s).
Proof.
  assert (Hle : length s <= length s) by lia.
  revert Hle. generalize (length s) at 2 as n. intros n; revert s.
  induction n as [|n IH]; intros [|c s] Hle; try (constructor; fail);
    try (simpl in Hle; lia).
  cbn [length] in Hle. cbn [Py.splitlines].
  destruct (Py.islinebreak c) eqn:Hc.
  - constructor; [constructor|].
    destruct s as [|d s'']; [constructor|].
    destruct ((c =? Py.CR)%N && (d =? Py.LF)%N); apply IH;
      cbn [length] in *; lia.
  - specialize (IH s ltac:(lia)).
    destruct (Py.splitlines s) as [|l ls].
    + repeat constructor. exact Hc.
    + inversion IH; subst. constructor; auto. now constructor.
Qed.

Lemma splitlines_line (l : str) :
  l <> [] -> nobreak l -> Py.splitlines l = [l].
Proof.
  intros Hne H. induction H as [|c l Hc Hl IH]; [congruence|].
  cbn [Py.splitlines]. rewrite Hc.
  destruct l as [|c' l]; [reflexivity|].
  rewrite IH by discriminate. reflexivity.
Qed.

Lemma splitlines_lf (r : str) :
  Py.splitlines (Py.LF :: r) = [] :: Py.splitlines r.
Proof. now destruct r. Qed.

Lemma splitlines_app_lf (l r : str) :
  nobreak l -> Py.splitlines (l ++ Py.LF :: r) = l :: Py.splitlines r.
Proof.
  intros H. induction H as [|c l Hc Hl IH].
  - apply splitlines_lf.
  - cbn [app Py.splitlines]. now rewrite Hc, IH.
Qed.

Lemma join_cons2 (p q : str) (ps : list str) :
  Py.join [Py.LF] (p :: q :: ps) = p ++ Py.LF :: Py.join [Py.LF] (q :: ps).
Proof. reflexivity. Qed.

(** The first line of joined lines is the first of the lines. *)
Lemma first_line_join (l : str) (ls : list str) :
  l <> [] -> nobreak l -> first_line (Py.join [Py.LF] (l :: ls)) = l.
Proof.
  intros Hne H. unfold first_line. destruct ls as [|q ls].
  - simpl. now rewrite splitlines_line.
  - rewrite join_cons2, splitlines_app_lf by assumption. reflexivity.
Qed.

(** Joining lines and splitting again gives the lines back, when the last
    line is not empty. *)
Lemma splitlines_join (ls : list str) :
  Forall nobreak ls -> last ls [Py.LF] <> [] ->
  Py.splitlines (Py.join [Py.LF] ls) = ls.
Proof.
  induction 1 as [|l ls Hl Hls IH]; [reflexivity|].
  destruct ls as [|q ls].
  - intros Hne. simpl in *. now apply splitlines_line.
  - intros Hne. rewrite join_cons2, splitlines_app_lf by assumption.
    f_equal. apply IH. exact Hne.
Qed.

Lemma join_breaks (ls : list str) :
  Forall nobreak ls ->
  Forall (fun c => Py.islinebreak c = true -> c = Py.LF)
    (Py.join [Py.LF] ls).
Proof.
  induction 1 as [|l ls Hl Hls IH]; [constructor|].
  assert (Hl' : Forall (fun c => Py.islinebreak c = true -> c = Py.LF) l).
  { eapply Forall_impl; [|exact Hl]. simpl. intros c Hc. congruence. }
  destruct ls as [|q ls]; [exact Hl'|].
  rewrite join_cons2. apply Forall_app. split; auto.
Qed.

Lemma dropwhile_forall (A : Type) (P : A -> Prop) (p : A -> bool)
    (l : list A) :
  Forall P l -> Forall P (Py.dropwhile p l).
Proof.
  induction 1 as [|x l Hx Hl IH]; simpl; [constructor|].
  destruct (p x); auto.
Qed.

Lemma dropwhile_head (A : Type) (p : A -> bool) (l : list A) :
  match Py.dropwhile p l with [] => True | x :: _ => p x = false end.
Proof.
  induction l as [|x l IH]; simpl; auto.
  destruct (p x) eqn:E; auto.
Qed.

Lemma last_middle (A : Type) (l1 l2 : list A) (x d d' : A) :
  last (l1 ++ x :: l2) d = last (x :: l2) d'.
Proof.
  assert (Hne : x :: l2 <> []) by discriminate.
  destruct (exists_last Hne) as (X & z & E).
  rewrite E, app_assoc, !last_last. reflexivity.
Qed.

(** A text that does not end in a line boundary has a last line that is
    not empty. *)
Lemma splitlines_last (s : str) :
  s <> [] -> Py.islinebreak (last s Py.LF) = false ->
  last (Py.splitlines s) [] <> [].
Proof.
  assert (Hle : length s <= length s) by lia.
  revert Hle. generalize (length s) at 2 as n. intros n; revert s.
  induction n as [|n IH]; intros [|c s] Hle Hne Hlast; try congruence;
    try (simpl in Hle; lia).
  cbn [length] in Hle. cbn [Py.splitlines].
  assert (Hcons : forall (x : str) (X : list str),
            last X [] <> [] -> last (x :: X) [] <> []).
  { intros x X. destruct X; simpl; auto. }
  destruct (Py.islinebreak c) eqn:Hc.
  - destruct s as [|d s'']; [simpl in Hlast; congruence|].
    apply Hcons.
    destruct ((c =? Py.CR)%N && (d =? Py.LF)%N) eqn:E.
    + apply andb_true_iff in E. destruct E as [_ E].
      apply N.eqb_eq in E. subst d.
      destruct s'' as [|e s'']; [simpl in Hlast; discriminate Hlast|].
      apply IH; [cbn [length] in *; lia | discriminate | exact Hlast].
    + apply IH; [cbn [length] in *; lia | discriminate | exact Hlast].
  - destruct s as [|d s''].
    + simpl. discriminate.
    + specialize (IH (d :: s'') ltac:(lia) ltac:(discriminate) Hlast).
      destruct (Py.splitlines (d :: s'')) as [|l ls]; [discriminate|].
      destruct ls; [discriminate | exact IH].
Qed.

Lemma strip_last (raw : str) :
  Py.strip raw <> [] -> Py.isspace (last (Py.strip raw) Py.LF) = false.
Proof.
  unfold Py.strip, Py.rstrip.
  pose proof (dropwhile_head _ Py.isspace (rev (Py.lstrip raw))) as H.
  destruct (Py.dropwhile Py.isspace (rev (Py.lstrip raw))) as [|x X];
    [simpl; congruence|].
  intros _. simpl. now rewrite last_last.
Qed.

(** The last line of a trimmed text is not empty. *)
Lemma strip_lines_last (raw : str) :
  Py.strip raw <> [] -> last (Py.splitlines (Py.strip raw)) [] <> [].
Proof.
  intros Hne. apply splitlines_last; auto.
  pose proof (strip_last raw Hne) as Hs.
  destruct (Py.islinebreak (last (Py.strip raw) Py.LF)) eqn:E; auto.
  apply linebreak_isspace in E. congruence.
Qed.

(** ** What the strippers return when they strip *)

Lemma strip_yaml_frontmatter_stripped (text : str) :
  has_frontmatter text = true ->
  exists first meta closing after,
    Py.splitlines text = first :: meta ++ closing :: after
    /\ is_delimiter first = true
    /\ strip_yaml_frontmatter text
       = Py.lstrip_chars [Py.LF] (Py.join [Py.LF] after).
Proof.
  unfold has_frontmatter. rewrite strip_yaml_frontmatter_eq.
  destruct (Py.splitlines text) as [|first rest]; [discriminate|].
  intros H. apply andb_true_iff in H. destruct H as [Hf Hr].
  rewrite Hf.
  destruct (after_delimiter rest) as [after|] eqn:Ha.
  - apply after_delimiter_split in Ha.
    destruct Ha as (meta & closing & -> & _ & _).
    now exists first, meta, closing, after.
  - apply after_delimiter_none in Ha. congruence.
Qed.

Lemma strip_header_stripped (text : str) :
  has_header text = true ->
  exists first rest,
    Py.splitlines text = first :: rest
    /\ Py.startswith first (py "## ") = true
    /\ strip_header text = Py.join [Py.LF] (Py.dropwhile is_blank rest).
Proof.
  unfold has_header, first_line, strip_header.
  destruct (Py.splitlines text) as [|first rest]; cbn [hd].
  - discriminate.
  - intros H. rewrite H. now exists first, rest.
Qed.

(** X7.  A stripper returns the text as it is or a shorter one: it never
    adds to the text, and it never changes a text without shortening
    it. *)
Theorem strippers_only_shorten (text : str) :
  (strip_yaml_frontmatter text = text
   \/ length (strip_yaml_frontmatter text) < length text)
  /\ (strip_header text = text
      \/ length (strip_header text) < length text).
Proof.
  split.
  - destruct (has_frontmatter text) eqn:H.
    + right. destruct (strip_yaml_frontmatter_stripped text H)
        as (first & meta & closing & after & Hl & Hf & ->).
      pose proof (join_tail_shorter _ _ _ Hl (is_delimiter_nonempty _ Hf))
        as Hlt.
      pose proof (join_skipn_length [Py.LF] (length meta + 1)
                    (meta ++ closing :: after)) as Hle.
      rewrite skipn_succ_middle in Hle.
      pose proof (dropwhile_length _
                    (fun c => existsb (N.eqb c) [Py.LF])
                    (Py.join [Py.LF] after)) as Hd.
      unfold Py.lstrip_chars.
      eapply Nat.le_lt_trans; [exact Hd|].
      eapply Nat.le_lt_trans; [exact Hle | exact Hlt].
    + left. now apply strip_yaml_frontmatter_fixed.
  - destruct (has_header text) eqn:H.
    + right. destruct (strip_header_stripped text H)
        as (first & rest & Hl & Hf & ->).
      assert (Hne : first <> [])
        by (eapply startswith_nonempty; [|exact Hf]; discriminate).
      pose proof (join_tail_shorter _ _ _ Hl Hne) as Hlt.
      destruct (dropwhile_skipn _ is_blank rest) as [k Hk].
      pose proof (join_skipn_length [Py.LF] k rest) as Hle.
      rewrite <- Hk in Hle.
      eapply Nat.le_lt_trans; [exact Hle | exact Hlt].
    + left. now apply strip_header_fixed.
Qed.

(** X8.  When a stripper strips, it rebuilds the text from its lines: every
    line boundary of what it returns is a line feed, whatever boundaries
    the text came with. *)
Theorem strippers_normalise_breaks (text : str) :
  (has_frontmatter text = true ->
   Forall (fun c => Py.islinebreak c = true -> c = Py.LF)
     (strip_yaml_frontmatter text))
  /\ (has_header text = true ->
      Forall (fun c => Py.islinebreak c = true -> c = Py.LF)
        (strip_header text)).
Proof.
  pose proof (splitlines_nobreak text) as Hnb. split; intros H.
  - destruct (strip_yaml_frontmatter_stripped text H)
      as (first & meta & closing & after & Hl & _ & ->).
    rewrite Hl in Hnb. apply Forall_inv_tail in Hnb.
    apply Forall_app in Hnb. destruct Hnb as [_ Hnb].
    apply Forall_inv_tail in Hnb.
    apply dropwhile_forall. now apply join_breaks.
  - destruct (strip_header_stripped text H)
      as (first & rest & Hl & _ & ->).
    rewrite Hl in Hnb. apply Forall_inv_tail in Hnb.
    apply join_breaks. now apply dropwhile_forall.
Qed.

Lemma strippers_normalise_breaks_witness :
  Forall (fun c => Py.islinebreak c = true -> c = Py.LF)
    (strip_yaml_frontmatter
       (py "---" ++ [Py.CR; Py.LF] ++ py "---" ++ [8232%N] ++ py "a"
        ++ [11%N] ++ py "b"))
  /\ Forall (fun c => Py.islinebreak c = true -> c = Py.LF)
       (strip_header (py "## T" ++ [12%N] ++ py "a" ++ [133%N] ++ py "b")).
Proof.
  split.
  - apply (proj1 (strippers_normalise_breaks _)). by_computation.
  - apply (proj2 (strippers_normalise_breaks _)). by_computation.
Defined.

(** X9.  When the header stripper removes a header, what it returns is
    empty or begins with a line that is not blank: the body starts at its
    first line with text. *)
Theorem strip_header_body_starts (text : str) :
  has_header text = true ->
  strip_header text = []
  \/ is_blank (first_line (strip_header text)) = false.
Proof.
  intros H. pose proof (splitlines_nobreak text) as Hnb.
  destruct (strip_header_stripped text H) as (first & rest & Hl & _ & ->).
  rewrite Hl in Hnb. apply Forall_inv_tail in Hnb.
  pose proof (dropwhile_head _ is_blank rest) as Hh.
  pose proof (dropwhile_forall _ nobreak is_blank rest Hnb) as Hd.
  destruct (Py.dropwhile is_blank rest) as [|l ls]; [now left|].
  right. rewrite first_line_join; auto.
  - intros ->. discriminate Hh.
  - now inversion Hd.
Qed.

Lemma strip_header_body_starts_witness :
  strip_header (py "## Title\n \n\nBody\n") = []
  \/ is_blank (first_line (strip_header (py "## Title\n \n\nBody\n")))
     = false.
Proof.
  apply strip_header_body_starts. by_computation.
Defined.

Lemma lstrip_join_nil (ls : list str) :
  ls <> [] ->
  Py.lstrip_chars [Py.LF] (Py.join [Py.LF] ([] :: ls))
  = Py.lstrip_chars [Py.LF] (Py.join [Py.LF] ls).
Proof. destruct ls; [congruence | reflexivity]. Qed.

Lemma lstrip_join_gap (gap : list str) (header : str) (rest : list str) :
  Forall (fun l => l = []) gap ->
  Py.startswith header (py "## ") = true ->
  Py.lstrip_chars [Py.LF] (Py.join [Py.LF] (gap ++ header :: rest))
  = Py.join [Py.LF] (header :: rest).
Proof.
  intros Hg Hh. induction Hg as [|l gap Hl _ IH].
  - apply startswith_app in Hh. destruct Hh as (t & ->).
    unfold Py.lstrip_chars. apply dropwhile_stop.
    destruct rest; reflexivity.
  - subst l. etransitivity; [|exact IH].
    apply lstrip_join_nil. now destruct gap.
Qed.

Lemma strip_header_lines (text first : str) (rest : list str) :
  Py.splitlines text = first :: rest ->
  Py.startswith first (py "## ") = true ->
  strip_header text = Py.join [Py.LF] (Py.dropwhile is_blank rest).
Proof.
  intros Hl Hf. unfold strip_header. now rewrite Hl, Hf.
Qed.

(** X10.  The two strippers in the order the bundler applies them, on a
    trimmed fragment that opens with a metadata block, empty lines and a
    header: what is left is the body, the lines after the header and after
    the blank lines that follow it, joined by line feeds. *)
Theorem strip_frontmatter_then_header
    (raw first : str) (meta : list str) (closing : str) (gap : list str)
    (header : str) (blanks body : list str) :
  Py.splitlines (Py.strip raw)
  = first :: meta ++ closing :: gap ++ header :: blanks ++ body ->
  is_delimiter first = true ->
  Forall (fun l => is_delimiter l = false) meta ->
  is_delimiter closing = true ->
  Forall (fun l => l = []) gap ->
  Py.startswith header (py "## ") = true ->
  Forall (fun l => is_blank l = true) blanks ->
  (forall l body', body = l :: body' -> is_blank l = false) ->
  strip_header (strip_yaml_frontmatter (Py.strip raw))
  = Py.join (py "\n") body.
Proof.
  intros Hl Hf Hm Hc Hg Hh Hb Hbody.
  pose proof (splitlines_nobreak (Py.strip raw)) as Hnb.
  assert (Hne : Py.strip raw <> []).
  { intros E. rewrite E in Hl. discriminate Hl. }
  pose proof (strip_lines_last raw Hne) as Hlast.
  rewrite Hl in Hnb, Hlast.
  rewrite strip_yaml_frontmatter_eq, Hl, Hf.
  assert (Ha : after_delimiter (meta ++ closing :: gap ++ header :: blanks
                                ++ body)
               = Some (gap ++ header :: blanks ++ body)).
  { apply after_delimiter_split. now exists meta, closing. }
  rewrite Ha. change (py "\n") with [Py.LF].
  rewrite lstrip_join_gap by assumption.
  rewrite (strip_header_lines _ header (blanks ++ body)); auto.
  - rewrite dropwhile_app by assumption.
    rewrite dropwhile_stop; [reflexivity|].
    destruct body as [|l body']; [exact I | eauto].
  - apply splitlines_join.
    + apply Forall_inv_tail in Hnb. apply Forall_app in Hnb.
      destruct Hnb as [_ Hnb]. apply Forall_inv_tail in Hnb.
      apply Forall_app in Hnb. now destruct Hnb as [_ Hnb].
    + assert (E : first :: meta ++ closing :: gap ++ header :: blanks ++ body
                  = (first :: meta ++ closing :: gap)
                    ++ header :: blanks ++ body)
        by (simpl; now rewrite <- app_assoc).
      rewrite E, (last_middle _ _ _ _ [] [Py.LF]) in Hlast. exact Hlast.
Qed.

Lemma strip_frontmatter_then_header_witness :
  strip_header
    (strip_yaml_frontmatter
       (Py.strip (py "\n---\ntitle: x\n---\n\n## Title\n \nBody\nmore\n")))
  = py "Body\nmore".
Proof.
  apply (strip_frontmatter_then_header _ (py "---") [py "title: x"]
           (py "---") [py ""] (py "## Title") [py " "]
           [py "Body"; py "more"]);
    try by_computation; try (repeat constructor; fail).
  intros l body' [= <- _]. reflexivity.
Defined.

(** ** What the bundlers write *)

Lemma fold_left_invariant (P : str -> Prop) (step : str -> File -> str)
    (l : list File) (out : str) :
  P out -> (forall o f, P o -> P (step o f)) -> P (fold_left step l out).
Proof.
  intros H0 Hs. revert out H0; induction l as [|f l IH]; intros out H0;
    simpl; auto.
Qed.

Lemma write_blank_line_ends (out : str) :
  Py.endswith (write out (py "\n\n")) (py "\n\n") = true.
Proof. apply endswith_app. now exists out. Qed.

(** X11.  The output of either bundler is empty or ends with a blank
    line: whatever is written last is followed by two line feeds. *)
Theorem bundle_ends_with_blank_line
    (h2f f2h : str -> str) (keys : list str) :
  (forall dir,
      bundle_cursor_rules h2f f2h keys dir = []
      \/ Py.endswith (bundle_cursor_rules h2f f2h keys dir) (py "\n\n")
         = true)
  /\ (forall general dir,
        bundle_github_instructions h2f f2h keys general dir = []
        \/ Py.endswith
             (bundle_github_instructions h2f f2h keys general dir)
             (py "\n\n") = true).
Proof.
  split.
  - intros dir. unfold bundle_cursor_rules.
    apply fold_left_invariant with
      (P := fun o => o = [] \/ Py.endswith o (py "\n\n") = true);
      [now left|].
    intros o f Ho. unfold cursor_step.
    destruct (Py.strip (text f)); auto.
    right. apply write_blank_line_ends.
  - intros general dir. unfold bundle_github_instructions.
    apply fold_left_invariant with
      (P := fun o => o = [] \/ Py.endswith o (py "\n\n") = true).
    + destruct general as [raw|]; [|now left].
      destruct (Py.strip raw); [now left|].
      right. apply write_blank_line_ends.
    + intros o f Ho. unfold github_step.
      destruct (Py.strip (text f)); auto.
      right. apply write_blank_line_ends.
Qed.






